(** * Sophgo SG2042 platform drivers: PLL rate solver and PCIe MSI manager

    A shallow embedding of the algorithmic cores of the SG2042 clock
    driver (PLL control word, post-divider derivation, rate search,
    rate application) and of the PCIe MSI bridge (bitmap allocation of
    hardware IRQ numbers, chained dispatch over the shared status
    region), with the properties the design document states for them.

    C integers are modelled as [Z] with the wrap-around of their width
    written out; the register file and the shared status region are
    total functions from offsets to 32-bit values; a division by zero
    is an outcome of its own. *)

From Stdlib Require Import ZArith List Bool Lia.
From coqutil Require Import Z.bitblast.
Import ListNotations.
Local Open Scope Z_scope.

(* ================================================================= *)
(** ** Machine arithmetic and control flow *)

Module C.

(** [unsigned int] and [unsigned long]/[u64] on the 64-bit target. *)
Definition wrap32 (x : Z) : Z := x mod 2 ^ 32.
Definition wrap64 (x : Z) : Z := x mod 2 ^ 64.

(** Outcome of a computation that may execute a division whose
    divisor is zero (undefined behaviour in C). *)
Inductive res (A : Type) : Type :=
| Ok (a : A)
| DivByZero.
Arguments Ok {A} a.
Arguments DivByZero {A}.

Definition bind {A B : Type} (m : res A) (k : A -> res B) : res B :=
  match m with
  | Ok a => k a
  | DivByZero => DivByZero
  end.

(** Unsigned division as written with the C operator [/]. *)
Definition udiv (n d : Z) : res Z :=
  if d =? 0 then DivByZero else Ok (n / d).

(** Modelled from the spec: [do_div(n, base)], the kernel's 64-bit
    division macro, is not among the driver sources.  The design
    document fixes its meaning: every division is an unsigned 64-bit
    floor division.  The quotient replaces [n]; the remainder the
    macro returns is never used by the drivers. *)
Definition do_div (n base : Z) : res Z := udiv n base.

(** [abs_diff(a, b)]: [(a > b) ? (a - b) : (b - a)] on unsigned long. *)
Definition abs_diff (a b : Z) : Z := if a >? b then a - b else b - a.

(** Control state of a loop body: fall through to the next iteration
    ([continue] or the end of the body), leave the enclosing
    function ([return]), or fault on a zero divisor. *)
Inductive ctl (S : Type) : Type :=
| Next (s : S)
| Return (s : S)
| Trap.
Arguments Next {S} s.
Arguments Return {S} s.
Arguments Trap {S}.

(** [for (i = lo; i < lo + count; i++) body], threading the state. *)
Fixpoint for_range {S : Type} (count : nat) (i : Z)
         (body : Z -> S -> ctl S) (s : S) : ctl S :=
  match count with
  | O => Next s
  | Datatypes.S n =>
      match body i s with
      | Next s' => for_range n (i + 1) body s'
      | Return s' => Return s'
      | Trap => Trap
      end
  end.

Definition EINVAL : Z := 22.
Definition ENOSPC : Z := 28.
Definition ESPIPE : Z := 29.
Definition ENOMEM : Z := 12.

End C.
Import C.

Declare Scope res_scope.
Notation "x <- m ;; k" := (bind m (fun x => k))
  (at level 61, m at next level, right associativity) : res_scope.
Local Open Scope res_scope.

(* ================================================================= *)
(** ** PLL control word and post-divider table (shared by all revisions) *)

Definition KHZ : Z := 1000.
Definition MHZ : Z := KHZ * KHZ.

(** The combinations of POSTDIV1 and POSTDIV2 with their product in the
    third column, in ascending order of the product. *)
Definition postdiv1_2 : list (Z * Z * Z) :=
  [ (2, 4,  8); (3, 3,  9); (2, 5, 10); (2, 6, 12);
    (2, 7, 14); (3, 5, 15); (4, 4, 16); (3, 6, 18);
    (4, 5, 20); (3, 7, 21); (4, 6, 24); (5, 5, 25);
    (4, 7, 28); (5, 6, 30); (5, 7, 35); (6, 6, 36);
    (6, 7, 42); (7, 7, 49) ].

(** The array search of the post-divider derivation: skip the entries
    whose product is below [tmp0], take the first other one, and
    return its second column as POSTDIV1 and its first as POSTDIV2. *)
Fixpoint postdiv_search (tmp0 : Z) (table : list (Z * Z * Z)) : option (Z * Z) :=
  match table with
  | [] => None
  | (d0, d1, product) :: rest =>
      if tmp0 >? product then postdiv_search tmp0 rest
      else Some (d1, d0)
  end.

(** [tmp0] of the derivation: ((prate / REFDIV) * FBDIV) / rate on u64. *)
Definition postdiv_product (rate prate fbdiv refdiv : Z) : res Z :=
  tmp0 <- do_div prate refdiv ;;
  let tmp0 := wrap64 (tmp0 * fbdiv) in
  do_div tmp0 rate.

(** The struct holding a setting: [sg2042_pll_ctrl] / [mango_pll_ctrl]. *)
Record pll_ctrl : Type := mk_pll_ctrl {
  freq : Z;
  fbdiv : Z;
  postdiv1 : Z;
  postdiv2 : Z;
  refdiv : Z
}.

Definition pll_ctrl_zero : pll_ctrl := mk_pll_ctrl 0 0 0 0 0.

(* ================================================================= *)
(** ** The SG2042 clock driver (2024 revision) *)

Module SG2042.

Definition REFDIV_MIN : Z := 1.
Definition REFDIV_MAX : Z := 63.
Definition FBDIV_MIN : Z := 16.
Definition FBDIV_MAX : Z := 320.

Definition PLL_FREF_SG2042 : Z := 25 * MHZ.

Definition PLL_FOUTPOSTDIV_MIN : Z := 16 * MHZ.
Definition PLL_FOUTPOSTDIV_MAX : Z := 3200 * MHZ.

Definition PLL_FOUTVCO_MIN : Z := 800 * MHZ.
Definition PLL_FOUTVCO_MAX : Z := 3200 * MHZ.

(** Modelled from the spec: [GENMASK(h, l)], the kernel macro for a
    word with bits [l..h] set, is not among the driver sources; the
    register layout of the design document (fbdiv:12 @16,
    postdiv2:3 @12, postdiv1:3 @8, refdiv:6 @0) fixes the masks. *)
Definition GENMASK (h l : Z) : Z := Z.shiftl (Z.ones (h - l + 1)) l.

Definition PLLCTRL_FBDIV_SHIFT : Z := 16.
Definition PLLCTRL_FBDIV_MASK : Z := Z.shiftr (GENMASK 27 16) PLLCTRL_FBDIV_SHIFT.
Definition PLLCTRL_POSTDIV2_SHIFT : Z := 12.
Definition PLLCTRL_POSTDIV2_MASK : Z := Z.shiftr (GENMASK 14 12) PLLCTRL_POSTDIV2_SHIFT.
Definition PLLCTRL_POSTDIV1_SHIFT : Z := 8.
Definition PLLCTRL_POSTDIV1_MASK : Z := Z.shiftr (GENMASK 10 8) PLLCTRL_POSTDIV1_SHIFT.
Definition PLLCTRL_REFDIV_SHIFT : Z := 0.
Definition PLLCTRL_REFDIV_MASK : Z := Z.shiftr (GENMASK 5 0) PLLCTRL_REFDIV_SHIFT.

Definition sg2042_pll_ctrl_encode (ctrl : pll_ctrl) : Z :=
  wrap32
    (Z.lor
       (Z.lor
          (Z.lor
             (Z.shiftl (Z.land (fbdiv ctrl) PLLCTRL_FBDIV_MASK) PLLCTRL_FBDIV_SHIFT)
             (Z.shiftl (Z.land (postdiv2 ctrl) PLLCTRL_POSTDIV2_MASK) PLLCTRL_POSTDIV2_SHIFT))
          (Z.shiftl (Z.land (postdiv1 ctrl) PLLCTRL_POSTDIV1_MASK) PLLCTRL_POSTDIV1_SHIFT))
       (Z.shiftl (Z.land (refdiv ctrl) PLLCTRL_REFDIV_MASK) PLLCTRL_REFDIV_SHIFT)).

(** The decoder fills the four divider fields of [ctrl] and leaves
    its [freq] as it was. *)
Definition sg2042_pll_ctrl_decode (reg_value : Z) (ctrl : pll_ctrl) : pll_ctrl :=
  {| freq := freq ctrl;
     fbdiv := Z.land (Z.shiftr reg_value PLLCTRL_FBDIV_SHIFT) PLLCTRL_FBDIV_MASK;
     postdiv1 := Z.land (Z.shiftr reg_value PLLCTRL_POSTDIV1_SHIFT) PLLCTRL_POSTDIV1_MASK;
     postdiv2 := Z.land (Z.shiftr reg_value PLLCTRL_POSTDIV2_SHIFT) PLLCTRL_POSTDIV2_MASK;
     refdiv := Z.land (Z.shiftr reg_value PLLCTRL_REFDIV_SHIFT) PLLCTRL_REFDIV_MASK |}.

(** rate = (parent_rate x FBDIV) / (REFDIV x POSTDIV1 x POSTDIV2). *)
Definition sg2042_pll_recalc_rate (reg_value parent_rate : Z) : res Z :=
  let ctrl_table := sg2042_pll_ctrl_decode reg_value pll_ctrl_zero in
  let numerator := wrap64 (parent_rate * fbdiv ctrl_table) in
  let denominator :=
    wrap32 (wrap32 (refdiv ctrl_table * postdiv1 ctrl_table) * postdiv2 ctrl_table) in
  do_div numerator denominator.

(** The post-divider derivation.  [Ok (Some (postdiv1, postdiv2))]
    is a return of 0 with both outputs written; [Ok None] is the
    return of [-EINVAL], which writes neither output. *)
Definition sg2042_pll_get_postdiv_1_2 (rate prate fbdiv refdiv : Z)
  : res (option (Z * Z)) :=
  tmp0 <- postdiv_product rate prate fbdiv refdiv ;;
  if tmp0 <=? 7 then Ok (Some (wrap32 tmp0, 1))
  else Ok (postdiv_search tmp0 postdiv1_2).

(** Body of the inner loop, for one [fbdiv] under a fixed [refdiv]. *)
Definition fbdiv_body (req_rate parent_rate refdiv fbdiv : Z) (best : pll_ctrl)
  : ctl pll_ctrl :=
  match do_div (wrap64 (parent_rate * fbdiv)) refdiv with
  | DivByZero => Trap
  | Ok foutvco =>
      if (foutvco <? PLL_FOUTVCO_MIN) || (foutvco >? PLL_FOUTVCO_MAX) then Next best
      else
        match sg2042_pll_get_postdiv_1_2 req_rate parent_rate fbdiv refdiv with
        | DivByZero => Trap
        | Ok None => Next best
        | Ok (Some (postdiv1, postdiv2)) =>
            match do_div foutvco (wrap32 (postdiv1 * postdiv2)) with
            | DivByZero => Trap
            | Ok foutpostdiv =>
                if abs_diff foutpostdiv req_rate <? abs_diff (freq best) req_rate then
                  let best' := mk_pll_ctrl foutpostdiv fbdiv postdiv1 postdiv2 refdiv in
                  if foutpostdiv =? req_rate then Return best' else Next best'
                else Next best
            end
        end
  end.

(** Body of the outer loop, for one [refdiv]. *)
Definition refdiv_body (req_rate parent_rate refdiv : Z) (best : pll_ctrl)
  : ctl pll_ctrl :=
  match do_div parent_rate refdiv with
  | DivByZero => Trap
  | Ok tmp =>
      if tmp <=? 10 then Next best
      else
        for_range (Z.to_nat (FBDIV_MAX + 1 - FBDIV_MIN)) FBDIV_MIN
                  (fbdiv_body req_rate parent_rate refdiv) best
  end.

(** The rate solver.  The result pairs the return code with the
    contents of [*best]; [best0] is what the caller's struct held. *)
Definition sg2042_get_pll_ctl_setting (best0 : pll_ctrl) (req_rate parent_rate : Z)
  : res (Z * pll_ctrl) :=
  if negb (parent_rate =? PLL_FREF_SG2042) then Ok (- EINVAL, best0)
  else if (req_rate <? PLL_FOUTPOSTDIV_MIN) || (req_rate >? PLL_FOUTPOSTDIV_MAX)
  then Ok (- EINVAL, best0)
  else
    match for_range (Z.to_nat (REFDIV_MAX + 1 - REFDIV_MIN)) REFDIV_MIN
                    (refdiv_body req_rate parent_rate) pll_ctrl_zero with
    | Trap => DivByZero
    | Return best => Ok (0, best)
    | Next best => if freq best =? 0 then Ok (- EINVAL, best) else Ok (0, best)
    end.

(** [sg2042_clk_pll_round_rate], given the parent rate [*prate]. *)
Definition sg2042_clk_pll_round_rate (pctrl_table0 : pll_ctrl) (req_rate prate : Z)
  : res Z :=
  r <- sg2042_get_pll_ctl_setting pctrl_table0 req_rate prate ;;
  let '(ret, pctrl_table) := r in
  if negb (ret =? 0) then Ok 0
  else sg2042_pll_recalc_rate (sg2042_pll_ctrl_encode pctrl_table) prate.

End SG2042.

(* ================================================================= *)
(** ** Register access *)

(** Modelled from the spec: the register access layer ([regmap_read],
    [regmap_write]) is a kernel service outside the driver sources; the
    drivers consume it as [read_reg(offset) -> u32] and
    [write_reg(offset, u32)].  The log [writes] records every write in
    program order. *)
Record regmap : Type := mk_regmap {
  regs : Z -> Z;
  writes : list (Z * Z)
}.

Definition regmap_read (map : regmap) (reg : Z) : Z := regs map reg.

Definition regmap_write (map : regmap) (reg val : Z) : regmap :=
  {| regs := fun r => if r =? reg then wrap32 val else regs map r;
     writes := writes map ++ [(reg, wrap32 val)] |}.

(** [while (cond(value)) regmap_read(map, reg, &value);] over a register
    file that nothing else changes meanwhile: the loop has no exit on
    time-out (it only warns), so it ends within [fuel] reads or not at
    all ([None]). *)
Fixpoint poll_while (fuel : nat) (cond : Z -> bool) (map : regmap) (reg value : Z)
  : option Z :=
  if cond value then
    match fuel with
    | O => None
    | S n => poll_while n cond map reg (regmap_read map reg)
    end
  else Some value.

(* ================================================================= *)
(** ** The Mango clock driver (2022 revisions) *)

(** Two revisions of this driver share the functions of the solver word
    for word: the earlier one names them [__pll_recalc_rate],
    [__pll_get_postdiv_1_2] and [__get_pll_ctl_setting], the later one
    puts [__mango_] in front.  The constants are those the later
    revision defines; the header the earlier one takes them from is not
    among the sources.  The register plumbing below is that of the
    later revision. *)
Module Mango.

Definition REFDIV_MIN : Z := 1.
Definition REFDIV_MAX : Z := 64.
Definition FBDIV_MIN : Z := 16.
Definition FBDIV_MAX : Z := 321.

Definition PLL_FREQ_MIN : Z := 16 * MHZ.
Definition PLL_FREQ_MAX : Z := 3200 * MHZ.

Definition ENCODE_PLL_CTRL (fbdiv p1 p2 refdiv : Z) : Z :=
  wrap32
    (Z.lor
       (Z.lor
          (Z.lor (Z.shiftl (Z.land fbdiv 0xfff) 16)
                 (Z.shiftl (Z.land p2 0x7) 12))
          (Z.shiftl (Z.land p1 0x7) 8))
       (Z.land refdiv 0x3f)).

Definition __pll_recalc_rate (reg_value parent_rate : Z) : res Z :=
  let fbdiv := Z.land (Z.shiftr reg_value 16) 0xfff in
  let refdiv := Z.land reg_value 0x3f in
  let postdiv1 := Z.land (Z.shiftr reg_value 8) 0x7 in
  let postdiv2 := Z.land (Z.shiftr reg_value 12) 0x7 in
  let numerator := wrap64 (parent_rate * fbdiv) in
  let denominator := wrap32 (wrap32 (refdiv * postdiv1) * postdiv2) in
  do_div numerator denominator.

(** [Ok None] is the return of [-ESPIPE] (index past the array). *)
Definition __pll_get_postdiv_1_2 (rate prate fbdiv refdiv : Z)
  : res (option (Z * Z)) :=
  tmp0 <- postdiv_product rate prate fbdiv refdiv ;;
  if tmp0 <=? 7 then Ok (Some (wrap32 tmp0, 1))
  else Ok (postdiv_search tmp0 postdiv1_2).

(** [fref * fbdiv / refdiv] with all three operands [unsigned int]:
    the product and the quotient are computed on 32 bits. *)
Definition foutvco_of (fref fbdiv refdiv : Z) : res Z :=
  udiv (wrap32 (fref * fbdiv)) refdiv.

Definition fbdiv_body (req_rate fref refdiv fbdiv : Z) (best : pll_ctrl)
  : ctl pll_ctrl :=
  match foutvco_of fref fbdiv refdiv with
  | DivByZero => Trap
  | Ok foutvco =>
      if (foutvco <? PLL_FREQ_MIN) || (foutvco >? PLL_FREQ_MAX)
         || (fref / refdiv <? 10)
      then Next best
      else
        match __pll_get_postdiv_1_2 req_rate fref fbdiv refdiv with
        | DivByZero => Trap
        | Ok None => Next best
        | Ok (Some (postdiv1, postdiv2)) =>
            match udiv foutvco (wrap32 (postdiv1 * postdiv2)) with
            | DivByZero => Trap
            | Ok tmp =>
                if abs_diff tmp req_rate <? abs_diff (freq best) req_rate then
                  let best' := mk_pll_ctrl tmp fbdiv postdiv1 postdiv2 refdiv in
                  if tmp =? req_rate then Return best' else Next best'
                else Next best
            end
        end
  end.

Definition refdiv_body (req_rate fref refdiv : Z) (best : pll_ctrl)
  : ctl pll_ctrl :=
  for_range (Z.to_nat (FBDIV_MAX + 1 - FBDIV_MIN)) FBDIV_MIN
            (fbdiv_body req_rate fref refdiv) best.

(** The rate solver; it always returns 0, and reports through
    [*best], which the callers clear beforehand. *)
Definition __get_pll_ctl_setting (best : pll_ctrl) (req_rate parent_rate : Z)
  : res (Z * pll_ctrl) :=
  let fref := wrap32 parent_rate in
  match for_range (Z.to_nat (REFDIV_MAX + 1 - REFDIV_MIN)) REFDIV_MIN
                  (refdiv_body req_rate fref) best with
  | Trap => DivByZero
  | Return best' => Ok (0, best')
  | Next best' => Ok (0, best')
  end.

(** Per-PLL data of the revision that addresses its registers by
    offsets and shifts. *)
Record mango_pll_clock : Type := mk_mango_pll_clock {
  offset_status : Z;
  offset_enable : Z;
  offset_ctrl : Z;
  shift_status_lock : Z;
  shift_status_updating : Z;
  shift_enable : Z
}.

(** [None]: a polling loop is still spinning after [fuel] reads. *)
Definition __mango_pll_enable (fuel : nat) (pll : mango_pll_clock) (en : bool)
           (map : regmap) : option regmap :=
  if en then
    let value := regmap_read map (offset_status pll) in
    match poll_while fuel
            (fun v => negb (Z.testbit (Z.shiftr v (shift_status_lock pll)) 0))
            map (shift_status_lock pll) value with
    | None => None
    | Some _ =>
        let value := regmap_read map (shift_status_updating pll) in
        match poll_while fuel
                (fun v => Z.testbit (Z.shiftr v (shift_status_updating pll)) 0)
                map (shift_status_updating pll) value with
        | None => None
        | Some _ =>
            let value := regmap_read map (offset_enable pll) in
            Some (regmap_write map (offset_enable pll)
                    (Z.lor value (Z.shiftl 1 (shift_enable pll))))
        end
    end
  else
    let value := regmap_read map (offset_enable pll) in
    Some (regmap_write map (offset_enable pll)
            (Z.land value (Z.lnot (Z.shiftl 1 (shift_enable pll))))).

(** [mango_clk_pll_set_rate]: return code and final register file;
    [Ok None] when the enable path never stops polling. *)
Definition mango_clk_pll_set_rate (fuel : nat) (pll : mango_pll_clock)
           (rate parent_rate : Z) (map : regmap) : res (option (Z * regmap)) :=
  let ret := 0 in
  let pctrl_table := pll_ctrl_zero in
  match __mango_pll_enable fuel pll false map with
  | None => Ok None
  | Some map =>
      let value := regmap_read map (offset_ctrl pll) in
      r <- __get_pll_ctl_setting pctrl_table rate parent_rate ;;
      let pctrl_table := snd r in
      if freq pctrl_table =? 0 then Ok (Some (ret, map))
      else
        let value := ENCODE_PLL_CTRL (fbdiv pctrl_table) (postdiv1 pctrl_table)
                                     (postdiv2 pctrl_table) (refdiv pctrl_table) in
        let map := regmap_write map (offset_ctrl pll) value in
        match __mango_pll_enable fuel pll true map with
        | None => Ok None
        | Some map => Ok (Some (ret, map))
        end
  end.

End Mango.

(** The register plumbing of the earlier revision, which reaches the
    registers of a PLL through its [id]. *)
Module MangoTop.

Section Registers.

(** The constants of [clk.h] of this revision are not among the
    sources: the offset of the first control register and the
    position of the first lock bit in the status word. *)
Variables PLL_CTRL_OFFSET PLL_STAT_LOCK_OFFSET : Z.

Record mango_pll_clock : Type := mk_mango_pll_clock {
  id : Z;
  status_offset : Z;
  enable_offset : Z
}.

(** Modelled from the spec: [TOP_PLL_CTRL], the macro packing the
    control word in this revision, is not among the sources; the
    control word format is [{fbdiv:12 @16, postdiv2:3 @12,
    postdiv1:3 @8, refdiv:6 @0}]. *)
Definition TOP_PLL_CTRL (fbdiv p1 p2 refdiv : Z) : Z :=
  Mango.ENCODE_PLL_CTRL fbdiv p1 p2 refdiv.

Definition mango_pll_enable (fuel : nat) (map : regmap) (pll : mango_pll_clock)
           (en : bool) : option regmap :=
  let id := id pll in
  if en then
    let value := regmap_read map (status_offset pll) in
    match poll_while fuel
            (fun v => negb (Z.testbit (Z.shiftr v (PLL_STAT_LOCK_OFFSET + id)) 0))
            map (status_offset pll) value with
    | None => None
    | Some _ =>
        let value := regmap_read map (status_offset pll) in
        match poll_while fuel
                (fun v => Z.testbit (Z.shiftr v id) 0)
                map (status_offset pll) value with
        | None => None
        | Some _ =>
            let value := regmap_read map (enable_offset pll) in
            Some (regmap_write map (enable_offset pll) (Z.lor value (Z.shiftl 1 id)))
        end
    end
  else
    let value := regmap_read map (enable_offset pll) in
    Some (regmap_write map (enable_offset pll)
            (Z.land value (Z.lnot (Z.shiftl 1 id)))).

Definition mango_pll_write (map : regmap) (id value : Z) : regmap :=
  regmap_write map (PLL_CTRL_OFFSET + Z.shiftl id 2) value.

Definition mango_pll_read (map : regmap) (id : Z) : Z :=
  regmap_read map (PLL_CTRL_OFFSET + Z.shiftl id 2).

Definition mango_clk_pll_set_rate (fuel : nat) (mango_pll : mango_pll_clock)
           (rate parent_rate : Z) (syscon_top : regmap)
  : res (option (Z * regmap)) :=
  let ret := 0 in
  let pctrl_table := pll_ctrl_zero in
  match mango_pll_enable fuel syscon_top mango_pll false with
  | None => Ok None
  | Some syscon_top =>
      let value := mango_pll_read syscon_top (id mango_pll) in
      r <- Mango.__get_pll_ctl_setting pctrl_table rate parent_rate ;;
      let pctrl_table := snd r in
      if freq pctrl_table =? 0 then Ok (Some (ret, syscon_top))
      else
        let value := TOP_PLL_CTRL (fbdiv pctrl_table) (postdiv1 pctrl_table)
                                  (postdiv2 pctrl_table) (refdiv pctrl_table) in
        let syscon_top := mango_pll_write syscon_top (id mango_pll) value in
        match mango_pll_enable fuel syscon_top mango_pll true with
        | None => Ok None
        | Some syscon_top => Ok (Some (ret, syscon_top))
        end
  end.

End Registers.

End MangoTop.

(* ================================================================= *)
(** ** The PCIe MSI bridge *)

Module MSI.

Definition MAX_MSI_IRQS : Z := 512.
Definition MAX_MSI_IRQS_PER_CTRL : Z := 1.
Definition MSI_DEF_NUM_VECTORS : Z := 512.
Definition BYTE_NUM_PER_MSI_VEC : Z := 4.

Definition IRQ_NONE : Z := 0.
Definition IRQ_HANDLED : Z := 1.

(** [for (i = lo; i < lo + count; i++) s = body(i, s)]. *)
Fixpoint iterate {S : Type} (count : nat) (i : Z) (body : Z -> S -> S) (s : S) : S :=
  match count with
  | O => s
  | Datatypes.S n => iterate n (i + 1) body (body i s)
  end.

(** The shared status region, by byte offset from [msi_page]. *)
Definition msi_mem : Type := Z -> Z.

Definition readl (page : msi_mem) (off : Z) : Z := page off.

Definition writel (val : Z) (page : msi_mem) (off : Z) : msi_mem :=
  fun o => if o =? off then wrap32 val else page o.

(** The fields of [struct sg2042_pcie] the MSI logic works on. *)
Record sg2042_pcie : Type := mk_sg2042_pcie {
  msi_page : msi_mem;
  num_vectors : Z;
  num_applied_vecs : Z;
  msi_irq_in_use : Z
}.

(** Status entry of slot [i]. *)
Definition entry (page : msi_mem) (i : Z) : Z :=
  readl page (i * BYTE_NUM_PER_MSI_VEC).

(** *** Kernel helpers *)

(** Modelled from the spec: [find_next_bit(addr, size, offset)] is a
    kernel bitmap helper outside the driver sources: the index of the
    first set bit at or after [offset] and below [size], or [size]
    when there is none. *)
Fixpoint find_next_bit_from (fuel : nat) (val size pos : Z) : Z :=
  match fuel with
  | O => size
  | S n =>
      if size <=? pos then size
      else if Z.testbit val pos then pos
           else find_next_bit_from n val size (pos + 1)
  end.

Definition find_next_bit (val size offset : Z) : Z :=
  find_next_bit_from (Z.to_nat (size - offset)) val size offset.

(** Modelled from the spec: [order_base_2(n)], the kernel's rounded-up
    binary logarithm (allocation is "aligned to power-of-two region
    per kernel bitmap semantics"); 0 for [n <= 1]. *)
Definition order_base_2 (n : Z) : Z :=
  if n <=? 1 then 0 else Z.log2 (n - 1) + 1.

(** The bits of the region of [2 ^ order] slots starting at [pos]. *)
Definition region_mask (pos order : Z) : Z :=
  Z.shiftl (Z.ones (2 ^ order)) pos.

Definition region_is_free (bitmap pos order : Z) : bool :=
  Z.land bitmap (region_mask pos order) =? 0.

Fixpoint find_free_from (fuel : nat) (bitmap bits order pos : Z) : option Z :=
  match fuel with
  | O => None
  | S n =>
      let end_ := pos + 2 ^ order in
      if end_ <=? bits then
        if region_is_free bitmap pos order then Some pos
        else find_free_from n bitmap bits order end_
      else None
  end.

(** Modelled from the spec: [bitmap_find_free_region(bitmap, bits,
    order)] is a kernel helper outside the driver sources: first fit
    over the regions of [2 ^ order] bits aligned to their size; it
    marks the region found as allocated and returns its base, or a
    negative error code and an untouched bitmap when there is none. *)
Definition bitmap_find_free_region (bitmap bits order : Z) : Z * Z :=
  match find_free_from (Z.to_nat bits) bitmap bits order 0 with
  | Some pos => (pos, Z.lor bitmap (region_mask pos order))
  | None => (- ENOMEM, bitmap)
  end.

(** Modelled from the spec: [bitmap_release_region(bitmap, pos,
    order)], its counterpart: "releases the contiguous region back to
    the bitmap". *)
Definition bitmap_release_region (bitmap pos order : Z) : Z :=
  Z.ldiff bitmap (region_mask pos order).

(** Modelled from the spec: the interrupt descriptors the kernel IRQ
    framework keeps for a domain: [irq_domain_set_info] records the
    hardware IRQ number of a virtual IRQ, [irq_domain_get_irq_data]
    retrieves the record (none: a null pointer). *)
Definition irq_table : Type := Z -> option Z.

Definition irq_domain_set_info (virq hwirq : Z) (t : irq_table) : irq_table :=
  fun v => if v =? virq then Some hwirq else t v.

Definition irq_domain_get_irq_data (t : irq_table) (virq : Z) : option Z := t virq.

(** *** Allocation and release of hardware IRQ numbers *)

(** Return code, driver state and interrupt descriptors afterwards. *)
Definition cdns_pcie_irq_domain_alloc (pcie : sg2042_pcie) (t : irq_table)
           (virq nr_irqs : Z) : Z * sg2042_pcie * irq_table :=
  let '(bit, bitmap) :=
    bitmap_find_free_region (msi_irq_in_use pcie) (num_vectors pcie)
                            (order_base_2 nr_irqs) in
  let pcie := mk_sg2042_pcie (msi_page pcie) (num_vectors pcie)
                             (num_applied_vecs pcie) bitmap in
  if bit <? 0 then (- ENOSPC, pcie, t)
  else
    (0, pcie,
     iterate (Z.to_nat nr_irqs) 0
             (fun i t => irq_domain_set_info (wrap32 (virq + i)) (bit + i) t) t).

(** [None]: no descriptor for [virq], the release dereferences null. *)
Definition cdns_pcie_irq_domain_free (pcie : sg2042_pcie) (t : irq_table)
           (virq nr_irqs : Z) : option sg2042_pcie :=
  match irq_domain_get_irq_data t virq with
  | None => None
  | Some hwirq =>
      Some (mk_sg2042_pcie (msi_page pcie) (num_vectors pcie) (num_applied_vecs pcie)
              (bitmap_release_region (msi_irq_in_use pcie) hwirq
                                     (order_base_2 nr_irqs)))
  end.

(** *** Chained dispatch *)

(** What a dispatch leaves behind: its return code, the status
    region, and the virtual IRQs handed to [generic_handle_irq], in
    order. *)
Record dispatch : Type := mk_dispatch {
  ret : Z;
  page : msi_mem;
  raised : list Z
}.

(** The loop over the set bits of one status word:
    [while ((pos = find_next_bit(&val, PER_CTRL, pos)) != PER_CTRL)
       { raise(pos); pos++; }].
    Each round moves [pos] up, so [PER_CTRL + 1] rounds end it. *)
Fixpoint handle_bits (fuel : nat) (val pos : Z) (raise : Z -> list Z) : list Z :=
  match fuel with
  | O => []
  | S n =>
      let pos := find_next_bit val MAX_MSI_IRQS_PER_CTRL pos in
      if pos =? MAX_MSI_IRQS_PER_CTRL then []
      else raise pos ++ handle_bits n val (pos + 1) raise
  end.

(** One round of the first pass, for slot [i]. *)
Definition first_pass_body (raise : Z -> list Z) (i : Z) (st : dispatch) : dispatch :=
  let status := readl (page st) (i * BYTE_NUM_PER_MSI_VEC) in
  if status =? 0 then st
  else
    let val := status in
    {| ret := IRQ_HANDLED;
       raised := raised st ++
                 handle_bits (S (Z.to_nat MAX_MSI_IRQS_PER_CTRL)) val 0
                   (fun pos => raise (i * MAX_MSI_IRQS_PER_CTRL + pos));
       page := writel 0 (page st) (i * BYTE_NUM_PER_MSI_VEC) |}.

(** One round of the fallback pass, for slot [i]. *)
Definition second_pass_body (irq_find_mapping : Z -> Z) (i : Z) (st : dispatch)
  : dispatch :=
  iterate (Z.to_nat MAX_MSI_IRQS_PER_CTRL) 0
          (fun pos st =>
             let irq := irq_find_mapping (i * MAX_MSI_IRQS_PER_CTRL + pos) in
             if irq =? 0 then st
             else mk_dispatch (ret st) (page st) (raised st ++ [irq]))
          st.

(** [cdns_handle_msi_irq]; [irq_find_mapping] is the lookup of the
    parent domain, from hardware IRQ number to virtual IRQ, 0 when
    there is no mapping. *)
Definition cdns_handle_msi_irq (pcie : sg2042_pcie) (irq_find_mapping : Z -> Z)
  : dispatch :=
  let num_vectors := num_applied_vecs pcie in
  let st := mk_dispatch IRQ_NONE (msi_page pcie) [] in
  let st :=
    iterate (Z.to_nat (num_vectors + 1)) 0
            (first_pass_body (fun hwirq => [irq_find_mapping hwirq])) st in
  if ret st =? IRQ_NONE then
    let st := mk_dispatch IRQ_HANDLED (page st) (raised st) in
    iterate (Z.to_nat (num_vectors + 1)) 0 (second_pass_body irq_find_mapping) st
  else st.

(** Modelled from the spec: [generic_handle_domain_irq(domain, hwirq)]
    belongs to the kernel IRQ framework: it raises the virtual IRQ
    the domain maps [hwirq] to, and nothing without a mapping. *)
Definition generic_handle_domain_irq (irq_find_mapping : Z -> Z) (hwirq : Z) : list Z :=
  if irq_find_mapping hwirq =? 0 then [] else [irq_find_mapping hwirq].

(** [sg2042_pcie_handle_msi_irq], the later revision: one pass only. *)
Definition sg2042_pcie_handle_msi_irq (pcie : sg2042_pcie) (irq_find_mapping : Z -> Z)
  : dispatch :=
  let num_vectors := num_applied_vecs pcie in
  iterate (Z.to_nat (num_vectors + 1)) 0
          (first_pass_body (generic_handle_domain_irq irq_find_mapping))
          (mk_dispatch IRQ_NONE (msi_page pcie) []).

End MSI.

(* ================================================================= *)
(** ** Statements about the rate solver *)

Module PllSpec.

Import SG2042.

(** The stability floor of the design document: the reference input
    FREF / REFDIV must exceed 10 MHz. *)
Definition REFDIV_FLOOR : Z := 10 * MHZ.

(** A parameter combination that satisfies the VCO-range and the
    input-stability constraints of the design document. *)
Definition admissible (fref rd fb p1 p2 : Z) : Prop :=
  REFDIV_MIN <= rd <= REFDIV_MAX /\ FBDIV_MIN <= fb <= FBDIV_MAX /\
  1 <= p1 <= 7 /\ 1 <= p2 <= 7 /\
  REFDIV_FLOOR < fref / rd /\
  PLL_FOUTVCO_MIN <= fref * fb / rd <= PLL_FOUTVCO_MAX.

(** The output frequency of a combination:
    FOUTVCO / (POSTDIV1 * POSTDIV2) with FOUTVCO = FREF * FBDIV / REFDIV. *)
Definition fout (fref rd fb p1 p2 : Z) : Z := fref * fb / rd / (p1 * p2).

Definition no_solution (req : Z) : Prop :=
  exists best,
    sg2042_get_pll_ctl_setting pll_ctrl_zero req PLL_FREF_SG2042 = Ok (- EINVAL, best).

(** The first testable property of the design document at one target
    rate: the solver returns a setting whose output is the closest to
    the target among all admissible combinations, or it reports no
    solution, which it does exactly when nothing is admissible. *)
Definition closest_or_none (req : Z) : Prop :=
  ((exists best,
       sg2042_get_pll_ctl_setting pll_ctrl_zero req PLL_FREF_SG2042 = Ok (0, best) /\
       forall rd fb p1 p2,
         admissible PLL_FREF_SG2042 rd fb p1 p2 ->
         abs_diff (fout PLL_FREF_SG2042 (refdiv best) (fbdiv best)
                        (postdiv1 best) (postdiv2 best)) req
         <= abs_diff (fout PLL_FREF_SG2042 rd fb p1 p2) req)
   \/ no_solution req)
  /\ (no_solution req <->
      forall rd fb p1 p2, ~ admissible PLL_FREF_SG2042 rd fb p1 p2).

(** A candidate the search examines for the target [req]: a pair
    (REFDIV, FBDIV) that passes the checks of the code, with the
    post-dividers the derivation gives for it and the output [f] they
    yield. *)
Definition examined (req rd fb p1 p2 f : Z) : Prop :=
  REFDIV_MIN <= rd <= REFDIV_MAX /\ FBDIV_MIN <= fb <= FBDIV_MAX /\
  10 < PLL_FREF_SG2042 / rd /\
  PLL_FOUTVCO_MIN <= PLL_FREF_SG2042 * fb / rd <= PLL_FOUTVCO_MAX /\
  sg2042_pll_get_postdiv_1_2 req PLL_FREF_SG2042 fb rd = Ok (Some (p1, p2)) /\
  p1 * p2 <> 0 /\
  f = fout PLL_FREF_SG2042 rd fb p1 p2.

(** *** Invariants of the search *)

(** [best] is still the cleared struct, or it holds an examined
    candidate that is closer to the target than the frequency 0 of
    the cleared struct. *)
Definition good (req : Z) (best : pll_ctrl) : Prop :=
  best = pll_ctrl_zero \/
  (examined req (refdiv best) (fbdiv best) (postdiv1 best) (postdiv2 best) (freq best) /\
   abs_diff (freq best) req < req).

(** No examined candidate among those [seen] is closer to the target
    than [best]. *)
Definition least_among (req : Z) (seen : Z -> Z -> Prop) (best : pll_ctrl) : Prop :=
  forall rd fb p1 p2 f,
    examined req rd fb p1 p2 f -> seen rd fb ->
    abs_diff (freq best) req <= abs_diff f req.

(** Before the round for [fbdiv = j] under [refdiv = r]. *)
Definition inner_inv (req r j : Z) (best : pll_ctrl) : Prop :=
  good req best /\
  least_among req (fun rd fb => rd < r \/ (rd = r /\ fb < j)) best.

(** Before the round for [refdiv = r]. *)
Definition outer_inv (req r : Z) (best : pll_ctrl) : Prop :=
  good req best /\ least_among req (fun rd _ => rd < r) best.

(** The state at the early return. *)
Definition exact_match (req : Z) (best : pll_ctrl) : Prop :=
  examined req (refdiv best) (fbdiv best) (postdiv1 best) (postdiv2 best) (freq best) /\
  freq best = req.

(** Up to this target no examined pair has a zero product. *)
Definition safe_target_max : Z := 799999680.

End PllSpec.

(* ================================================================= *)
(** ** Statements about the MSI dispatch *)

Module MsiSpec.

Import MSI.

(** The slot indices [lo], [lo + 1], ..., [count] of them. *)
Fixpoint slots_from (count : nat) (lo : Z) : list Z :=
  match count with
  | O => []
  | S n => lo :: slots_from n (lo + 1)
  end.

(** The slots a dispatch scans: 0 up to [num_applied_vecs], inclusive. *)
Definition scanned (pcie : sg2042_pcie) : list Z :=
  slots_from (Z.to_nat (num_applied_vecs pcie + 1)) 0.

(** Slot [i] has a non-zero status entry. *)
Definition pending (page : msi_mem) (i : Z) : bool := negb (entry page i =? 0).

(** Slot [i] has bit 0 of its status entry set. *)
Definition signalled (page : msi_mem) (i : Z) : bool := Z.testbit (entry page i) 0.

Definition mapped (irq : Z) : bool := negb (irq =? 0).

(** What the first pass raises for slot [i] when it raises at all:
    the hardware IRQ number is [i * PER_CTRL + pos] with [pos = 0]. *)
Definition raise_slot (raise : Z -> list Z) (i : Z) : list Z :=
  raise (i * MAX_MSI_IRQS_PER_CTRL + 0).

(** The status region after the first pass: the entries of the
    pending slots among [slots] are zero, all else is as before. *)
Definition cleared (page : msi_mem) (slots : list Z) : msi_mem :=
  fun off =>
    if existsb (fun i => pending page i && (off =? i * BYTE_NUM_PER_MSI_VEC)) slots
    then 0 else page off.

(** The dispatch property of the design document: the IRQ of every
    scanned slot with a non-zero entry is raised, and nothing else;
    those entries are zeroed, the others untouched; and with no
    non-zero entry the fallback raises the IRQ of every mapped slot. *)
Definition dispatch_as_stated (pcie : sg2042_pcie) (irq_find_mapping : Z -> Z) : Prop :=
  let d := cdns_handle_msi_irq pcie irq_find_mapping in
  let nonzero := filter (pending (msi_page pcie)) (scanned pcie) in
  (nonzero <> [] -> raised d = map irq_find_mapping nonzero) /\
  (forall i, In i nonzero -> entry (page d) i = 0) /\
  (forall i, ~ In i nonzero -> entry (page d) i = entry (msi_page pcie) i) /\
  (nonzero = [] ->
   raised d = filter mapped (map irq_find_mapping (scanned pcie))).

End MsiSpec.

(* ================================================================= *)
(** ** Kernel services the later drivers call *)

Module Kernel.

Definition ETIMEDOUT : Z := 110.

(** Modelled from the spec: [readl] and [writel], the kernel's
    accessors for memory-mapped 32-bit registers, are not among the
    driver sources; the drivers consume them as [read_reg(offset) ->
    u32] and [write_reg(offset, u32)], here over the register file of
    the register access layer, keyed by address. *)
Definition readl (io : regmap) (addr : Z) : Z := regmap_read io addr.

Definition writel (val addr : Z) (io : regmap) : regmap := regmap_write io addr val.

(** Modelled from the spec: [BIT(n)], the kernel macro for the word
    with only bit [n] set. *)
Definition BIT (n : Z) : Z := Z.shiftl 1 n.

(** Modelled from the spec: [readl_poll_timeout_atomic(addr, val, cond,
    delay, timeout)] re-reads the register into [val] until [cond]
    holds or the time-out has passed ("if either poll times out
    (~100ms), log a warning but proceed").  Over a register file that
    nothing else changes meanwhile every read returns the same word, so
    the first read decides.  The result is the return code (0 or
    [-ETIMEDOUT]) and the last word read. *)
Definition readl_poll_timeout_atomic (io : regmap) (addr : Z) (cond : Z -> bool)
  : Z * Z :=
  let val := readl io addr in
  if cond val then (0, val) else (- ETIMEDOUT, val).

(** The conversion of a 32-bit word to [int]. *)
Definition to_int (x : Z) : Z := (x + 2 ^ 31) mod 2 ^ 32 - 2 ^ 31.

(** Modelled from the spec: [DIV_ROUND_UP_ULL(ll, d)], the kernel's
    rounded-up 64-bit division, [do_div] applied to [ll + d - 1];
    "every division is an unsigned 64-bit floor division", by a 32-bit
    divisor. *)
Definition DIV_ROUND_UP_ULL (ll d : Z) : res Z :=
  do_div (wrap64 (ll + d - 1)) (wrap32 d).

(** Modelled from the spec: [lower_32_bits] and [upper_32_bits], the
    kernel macros that split a 64-bit address into the "two 32-bit
    registers (low/high physical address)". *)
Definition lower_32_bits (n : Z) : Z := wrap32 n.

Definition upper_32_bits (n : Z) : Z := wrap32 (Z.shiftr n 32).

End Kernel.

(* ================================================================= *)
(** ** The SG2042 clock driver (2024 revision): register plumbing *)

(** The 2024 revision reaches its registers with [readl] and [writel]
    at [base + offset], waits with a bounded poll, and wraps the solver
    and the control word of module [SG2042] into the clock operations
    of a PLL, of a divider and of a mux. *)
Module SG2042Clk.

Import SG2042 Kernel.

(** The messages of [pr_warn]. *)
Inductive warning : Type :=
| not_locked
| still_updating
| no_proper_setting.

Record sg2042_pll_clock : Type := mk_sg2042_pll_clock {
  base : Z;
  offset_status : Z;
  offset_enable : Z;
  offset_ctrl : Z;
  shift_status_lock : Z;
  shift_status_updating : Z;
  shift_enable : Z
}.

(** [sg2042_pll_enable]: the warnings printed and the register file
    afterwards; the return code is always 0. *)
Definition sg2042_pll_enable (pll : sg2042_pll_clock) (en : bool) (io : regmap)
  : list warning * regmap :=
  if en then
    let '(err1, _) :=
      readl_poll_timeout_atomic io (base pll + offset_status pll)
        (fun value => negb (Z.land (Z.shiftr value (shift_status_lock pll)) 1 =? 0)) in
    let '(err2, _) :=
      readl_poll_timeout_atomic io (base pll + offset_status pll)
        (fun value => Z.land (Z.shiftr value (shift_status_updating pll)) 1 =? 0) in
    let value := readl io (base pll + offset_enable pll) in
    ((if err1 =? 0 then [] else [not_locked]) ++
     (if err2 =? 0 then [] else [still_updating]),
     writel (Z.lor value (Z.shiftl 1 (shift_enable pll)))
            (base pll + offset_enable pll) io)
  else
    let value := readl io (base pll + offset_enable pll) in
    ([], writel (Z.land value (Z.lnot (Z.shiftl 1 (shift_enable pll))))
                (base pll + offset_enable pll) io).

Definition sg2042_clk_pll_recalc_rate (pll : sg2042_pll_clock) (parent_rate : Z)
           (io : regmap) : res Z :=
  let value := readl io (base pll + offset_ctrl pll) in
  sg2042_pll_recalc_rate value parent_rate.

(** [sg2042_clk_pll_determine_rate]: the new [req->rate], from the
    fields [rate], [max_rate] and [best_parent_rate] of the request. *)
Definition sg2042_clk_pll_determine_rate (pctrl_table0 : pll_ctrl)
           (rate max_rate best_parent_rate : Z) : res Z :=
  sg2042_clk_pll_round_rate pctrl_table0 (Z.min rate max_rate) best_parent_rate.

(** [sg2042_clk_pll_set_rate]: return code, warnings and final
    register file.  [pctrl_table0] is what the uninitialised local
    struct holds on entry. *)
Definition sg2042_clk_pll_set_rate (pctrl_table0 : pll_ctrl) (pll : sg2042_pll_clock)
           (rate parent_rate : Z) (io : regmap)
  : res (Z * list warning * regmap) :=
  let '(w0, io) := sg2042_pll_enable pll false io in
  r <- sg2042_get_pll_ctl_setting pctrl_table0 rate parent_rate ;;
  let '(ret, pctrl_table) := r in
  if negb (ret =? 0) then
    let '(w1, io) := sg2042_pll_enable pll true io in
    Ok (ret, w0 ++ [no_proper_setting] ++ w1, io)
  else
    let value := sg2042_pll_ctrl_encode pctrl_table in
    let io := writel value (base pll + offset_ctrl pll) io in
    let '(w1, io) := sg2042_pll_enable pll true io in
    Ok (ret, w0 ++ w1, io).

(** *** Dividers *)

(** Modelled from the spec: [clk_div_mask(width)], the clock
    framework's mask of a divider field ("value field at
    [{shift,width}]"); the older revisions define it themselves as
    [((1 << (width)) - 1)]. *)
Definition clk_div_mask (width : Z) : Z := Z.shiftl 1 width - 1.

Record sg2042_divider_clock : Type := mk_sg2042_divider_clock {
  reg : Z;
  shift : Z;
  width : Z;
  div_flags : Z;
  initval : Z
}.

Section Divider.

(** The clock framework's divider flags and its three divider helpers
    are not among the sources; the operations below are read for any
    of them. *)
Variables CLK_DIVIDER_READ_ONLY CLK_DIVIDER_HIWORD_MASK : Z.

(** [divider_get_val(rate, parent_rate, NULL, width, flags)]. *)
Variable divider_get_val : Z -> Z -> Z -> Z -> Z.

(** [divider_recalc_rate(hw, parent_rate, val, NULL, flags, width)]. *)
Variable divider_recalc_rate : Z -> Z -> Z -> Z -> Z.

(** [divider_round_rate(hw, rate, prate, NULL, width, flags)]. *)
Variable divider_round_rate : Z -> Z -> Z -> Z -> Z.

(** The factor in force: [initval] while bit 3 is clear, the factor
    field otherwise. *)
Definition sg2042_clk_divider_recalc_rate (divider : sg2042_divider_clock)
           (parent_rate : Z) (io : regmap) : Z :=
  let val :=
    if Z.land (readl io (reg divider)) (BIT 3) =? 0 then
      wrap32 (to_int (initval divider))
    else
      let val := Z.shiftr (readl io (reg divider)) (shift divider) in
      Z.land val (wrap32 (clk_div_mask (width divider))) in
  divider_recalc_rate parent_rate val (div_flags divider) (width divider).

Definition sg2042_clk_divider_round_rate (divider : sg2042_divider_clock)
           (rate prate : Z) (io : regmap) : res Z :=
  if negb (Z.land (div_flags divider) CLK_DIVIDER_READ_ONLY =? 0) then
    let bestdiv :=
      if Z.land (readl io (reg divider)) (BIT 3) =? 0 then
        to_int (initval divider)
      else
        let bestdiv := to_int (Z.shiftr (readl io (reg divider)) (shift divider)) in
        Z.land bestdiv (clk_div_mask (width divider)) in
    DIV_ROUND_UP_ULL (wrap64 prate) bestdiv
  else
    Ok (divider_round_rate rate prate (width divider) (div_flags divider)).

(** The return code (always 0) and the register file afterwards. *)
Definition sg2042_clk_divider_set_rate (divider : sg2042_divider_clock)
           (rate parent_rate : Z) (io : regmap) : Z * regmap :=
  let value :=
    wrap32 (divider_get_val rate parent_rate (width divider) (div_flags divider)) in
  let val := readl io (reg divider) in
  (* assert *)
  let val := Z.land val (wrap32 (Z.lnot 1)) in
  let io := writel val (reg divider) io in
  let val :=
    if negb (Z.land (div_flags divider) CLK_DIVIDER_HIWORD_MASK =? 0) then
      wrap32 (Z.shiftl (clk_div_mask (width divider)) (shift divider + 16))
    else
      let val := readl io (reg divider) in
      Z.land val
        (wrap32 (Z.lnot (Z.shiftl (clk_div_mask (width divider)) (shift divider)))) in
  let val := Z.lor val (wrap32 (Z.shiftl value (shift divider))) in
  let val := Z.lor val (Z.shiftl 1 3) in
  let io := writel val (reg divider) io in
  (* de-assert *)
  let val := Z.lor val 1 in
  let io := writel val (reg divider) io in
  (0, io).

End Divider.

(** *** Mux notifier *)

Section MuxNotifier.

(** The events of the clock notifier chain and the mux operations of
    the clock framework ([clk_mux_ops]) are not among the sources: the
    callback is read for any hardware state [Hw] with a [get_parent]
    and a [set_parent] that gives a return code and the new state. *)
Variables PRE_RATE_CHANGE POST_RATE_CHANGE : Z.
Variable Hw : Type.
Variable get_parent : Hw -> Z.
Variable set_parent : Hw -> Z -> Z * Hw.

(** [sg2042_mux_notifier_cb]: the errno handed to
    [notifier_from_errno], the field [original_index] of the mux and
    the hardware state afterwards. *)
Definition sg2042_mux_notifier_cb (original_index event : Z) (hw : Hw)
  : Z * Z * Hw :=
  let ret := 0 in
  if event =? PRE_RATE_CHANGE then
    let original_index := get_parent hw mod 2 ^ 8 in
    if original_index =? 0 then
      let '(ret, hw) := set_parent hw 1 in (ret, original_index, hw)
    else (ret, original_index, hw)
  else if event =? POST_RATE_CHANGE then
    let '(ret, hw) := set_parent hw original_index in (ret, original_index, hw)
  else (ret, original_index, hw).

End MuxNotifier.

End SG2042Clk.

(* ================================================================= *)
(** ** The Mango clock driver: rounding and dividers *)

Module MangoClk.

Import Mango Kernel.

(** [mango_clk_pll_recalc_rate] of the later revision. *)
Definition mango_clk_pll_recalc_rate (pll : mango_pll_clock) (parent_rate : Z)
           (map : regmap) : res Z :=
  let value := regmap_read map (offset_ctrl pll) in
  __pll_recalc_rate value parent_rate.

(** [mango_clk_pll_round_rate]; the register it reads first plays no
    part in the result. *)
Definition mango_clk_pll_round_rate (req_rate prate : Z) : res Z :=
  let pctrl_table := pll_ctrl_zero in
  r <- __get_pll_ctl_setting pctrl_table req_rate prate ;;
  let pctrl_table := snd r in
  if freq pctrl_table =? 0 then Ok 0
  else
    let value := ENCODE_PLL_CTRL (fbdiv pctrl_table) (postdiv1 pctrl_table)
                                 (postdiv2 pctrl_table) (refdiv pctrl_table) in
    __pll_recalc_rate value prate.

Definition div_mask (width : Z) : Z := Z.shiftl 1 width - 1.

(** A [clk_div_table]: the entries [(val, div)] before the terminating
    entry, whose [div] is 0. *)
Fixpoint _get_table_div (table : list (Z * Z)) (val : Z) : Z :=
  match table with
  | [] => 0
  | (clkt_val, clkt_div) :: rest =>
      if clkt_div =? 0 then 0
      else if clkt_val =? val then clkt_div
      else _get_table_div rest val
  end.

Record mango_clk_divider : Type := mk_mango_clk_divider {
  reg : Z;
  shift : Z;
  width : Z;
  flags : Z;
  table : option (list (Z * Z))
}.

Section Divider.

(** The clock framework's divider flags and its helpers are not among
    the sources; the operations below are read for any of them. *)
Variables CLK_DIVIDER_ONE_BASED CLK_DIVIDER_POWER_OF_TWO CLK_DIVIDER_MAX_AT_ZERO : Z.
Variables CLK_DIVIDER_READ_ONLY CLK_DIVIDER_HIWORD_MASK : Z.

(** [divider_get_val(rate, parent_rate, table, width, flags)]. *)
Variable divider_get_val : Z -> Z -> option (list (Z * Z)) -> Z -> Z -> Z.

(** [divider_round_rate(hw, rate, prate, table, width, flags)]. *)
Variable divider_round_rate : Z -> Z -> option (list (Z * Z)) -> Z -> Z -> Z.

(** The divisor a factor field stands for, as an [unsigned int]. *)
Definition _get_div (table : option (list (Z * Z))) (val flags width : Z) : Z :=
  if negb (Z.land flags CLK_DIVIDER_ONE_BASED =? 0) then val
  else if negb (Z.land flags CLK_DIVIDER_POWER_OF_TWO =? 0) then wrap32 (Z.shiftl 1 val)
  else if negb (Z.land flags CLK_DIVIDER_MAX_AT_ZERO =? 0) then
    (if negb (val =? 0) then val else wrap32 (div_mask width + 1))
  else
    match table with
    | Some table => _get_table_div table val
    | None => wrap32 (val + 1)
    end.

Definition mango_clk_divider_round_rate (divider : mango_clk_divider)
           (rate prate : Z) (io : regmap) : res Z :=
  if negb (Z.land (flags divider) CLK_DIVIDER_READ_ONLY =? 0) then
    let bestdiv :=
      to_int (Z.shiftr (readl io (reg divider)) (shift divider)) in
    let bestdiv := Z.land bestdiv (div_mask (width divider)) in
    let bestdiv :=
      to_int
        (_get_div (table divider) (wrap32 bestdiv) (flags divider) (width divider)) in
    DIV_ROUND_UP_ULL (wrap64 prate) bestdiv
  else
    Ok (divider_round_rate rate prate (table divider) (width divider) (flags divider)).

(** The return code (always 0) and the register file afterwards. *)
Definition mango_clk_divider_set_rate (divider : mango_clk_divider)
           (rate parent_rate : Z) (io : regmap) : Z * regmap :=
  let value :=
    wrap32 (divider_get_val rate parent_rate (table divider) (width divider)
                            (flags divider)) in
  (* div assert *)
  let val := readl io (reg divider) in
  let val := Z.land val (wrap32 (Z.lnot 1)) in
  let io := writel val (reg divider) io in
  let val :=
    if negb (Z.land (flags divider) CLK_DIVIDER_HIWORD_MASK =? 0) then
      wrap32 (Z.shiftl (div_mask (width divider)) (shift divider + 16))
    else
      let val := readl io (reg divider) in
      Z.land val
        (wrap32 (Z.lnot (Z.shiftl (div_mask (width divider)) (shift divider)))) in
  let val := Z.lor val (wrap32 (Z.shiftl value (shift divider))) in
  let io := writel val (reg divider) io in
  let val :=
    if Z.land (flags divider) CLK_DIVIDER_READ_ONLY =? 0 then Z.lor val (Z.shiftl 1 3)
    else val in
  (* de-assert *)
  let val := Z.lor val 1 in
  let io := writel val (reg divider) io in
  (0, io).

End Divider.

End MangoClk.

(* ================================================================= *)
(** ** The PCIe MSI bridge: message, chained handler, set-up *)

(** The fields [msi_data] and [link_id] of [struct sg2042_pcie] and
    its register file [syscon] are passed beside the record of module
    [MSI]. *)
Module MSIHost.

Import MSI.

Definition CDNS_PCIE_IRS_REG0804 : Z := 0x0804.
Definition CDNS_PCIE_IRS_REG080C : Z := 0x080C.
Definition CDNS_PCIE_IRS_REG0810 : Z := 0x0810.
Definition CDNS_PCIE_IRS_REG085C : Z := 0x085C.
Definition CDNS_PCIE_IRS_REG0860 : Z := 0x0860.
Definition CDNS_PCIE_IRS_REG0864 : Z := 0x0864.
Definition CDNS_PCIE_IRS_REG0868 : Z := 0x0868.
Definition CDNS_PCIE_IRS_REG086C : Z := 0x086C.

Definition CDNS_PCIE_IRS_REG0804_CLR_LINK0_MSI_IN_BIT : Z := 2.
Definition CDNS_PCIE_IRS_REG0804_CLR_LINK1_MSI_IN_BIT : Z := 3.
Definition CDNS_PCIE_IRS_REG0810_ST_LINK0_MSI_IN_BIT : Z := 2.
Definition CDNS_PCIE_IRS_REG0810_ST_LINK1_MSI_IN_BIT : Z := 3.

Definition CDNS_PLAT_CPU_TO_BUS_ADDR : Z := 0xCFFFFFFFFF.

(** [cdns_mango_cpu_addr_fixup] and, word for word the same,
    [sg2042_pcie_cpu_addr_fixup]. *)
Definition cdns_mango_cpu_addr_fixup (cpu_addr : Z) : Z :=
  Z.land cpu_addr CDNS_PLAT_CPU_TO_BUS_ADDR.

Record msi_msg : Type := mk_msi_msg {
  address_lo : Z;
  address_hi : Z;
  data : Z
}.

(** [cdns_pci_setup_msi_msg] and, word for word the same,
    [sg2042_pcie_msi_irq_compose_msi_msg]: the message for [hwirq] and
    the driver state afterwards. *)
Definition cdns_pci_setup_msi_msg (pcie : sg2042_pcie) (msi_data hwirq : Z)
  : msi_msg * sg2042_pcie :=
  let msi_target := wrap64 msi_data in
  ({| address_lo :=
        wrap32 (Kernel.lower_32_bits msi_target + BYTE_NUM_PER_MSI_VEC * hwirq);
      address_hi := Kernel.upper_32_bits msi_target;
      data := 1 |},
   mk_sg2042_pcie (msi_page pcie) (num_vectors pcie) (wrap32 hwirq)
                  (msi_irq_in_use pcie)).

(** Modelled from the spec: the delivery of a message by a device
    ("device write to [address] with payload [data] raises the
    interrupt"): a 32-bit write to the bus address
    [address_hi : address_lo], which falls into the status region at
    that address less [msi_data], the bus address of [msi_page]. *)
Definition deliver (msg : msi_msg) (msi_data : Z) (pcie : sg2042_pcie) : sg2042_pcie :=
  let address := Z.shiftl (address_hi msg) 32 + address_lo msg in
  mk_sg2042_pcie (writel (data msg) (msi_page pcie) (address - msi_data))
                 (num_vectors pcie) (num_applied_vecs pcie) (msi_irq_in_use pcie).

(** [cdns_chained_msi_isr] (and [cdns_pcie_irq_handler], which runs the
    same statements): the register file afterwards and the dispatch it
    ran, if any. *)
Definition cdns_chained_msi_isr (link_id : Z) (syscon : regmap) (pcie : sg2042_pcie)
           (irq_find_mapping : Z -> Z) : regmap * option dispatch :=
  let '(st_msi_in_bit, clr_msi_in_bit) :=
    if link_id =? 1 then
      (CDNS_PCIE_IRS_REG0810_ST_LINK1_MSI_IN_BIT,
       CDNS_PCIE_IRS_REG0804_CLR_LINK1_MSI_IN_BIT)
    else
      (CDNS_PCIE_IRS_REG0810_ST_LINK0_MSI_IN_BIT,
       CDNS_PCIE_IRS_REG0804_CLR_LINK0_MSI_IN_BIT) in
  let status := regmap_read syscon CDNS_PCIE_IRS_REG0810 in
  if negb (Z.land (Z.shiftr status st_msi_in_bit) 1 =? 0) then
    let status := regmap_read syscon CDNS_PCIE_IRS_REG0804 in
    let status := Z.lor status (wrap32 (Z.shiftl 1 clr_msi_in_bit)) in
    let syscon := regmap_write syscon CDNS_PCIE_IRS_REG0804 status in
    let status := Z.land status (wrap32 (Z.lnot (wrap32 (Z.shiftl 1 clr_msi_in_bit)))) in
    let syscon := regmap_write syscon CDNS_PCIE_IRS_REG0804 status in
    (syscon, Some (cdns_handle_msi_irq pcie irq_find_mapping))
  else (syscon, None).

(** [sg2042_pcie_chained_msi_isr], the later revision. *)
Definition sg2042_pcie_chained_msi_isr (link_id : Z) (syscon : regmap)
           (pcie : sg2042_pcie) (irq_find_mapping : Z -> Z) : regmap * option dispatch :=
  let '(st_msi_in_bit, clr_msi_in_bit) :=
    if link_id =? 1 then
      (CDNS_PCIE_IRS_REG0810_ST_LINK1_MSI_IN_BIT,
       CDNS_PCIE_IRS_REG0804_CLR_LINK1_MSI_IN_BIT)
    else
      (CDNS_PCIE_IRS_REG0810_ST_LINK0_MSI_IN_BIT,
       CDNS_PCIE_IRS_REG0804_CLR_LINK0_MSI_IN_BIT) in
  let status := regmap_read syscon CDNS_PCIE_IRS_REG0810 in
  if negb (Z.land (Z.shiftr status st_msi_in_bit) 1 =? 0) then
    let status := regmap_read syscon CDNS_PCIE_IRS_REG0804 in
    let status := Z.lor status (wrap32 (Z.shiftl 1 clr_msi_in_bit)) in
    let syscon := regmap_write syscon CDNS_PCIE_IRS_REG0804 status in
    let status := Z.land status (wrap32 (Z.lnot (wrap32 (Z.shiftl 1 clr_msi_in_bit)))) in
    let syscon := regmap_write syscon CDNS_PCIE_IRS_REG0804 status in
    (syscon, Some (sg2042_pcie_handle_msi_irq pcie irq_find_mapping))
  else (syscon, None).

(** [cdns_pcie_msi_init] and, word for word the same,
    [sg2042_pcie_msi_init].  [dma] is the outcome of
    [dma_alloc_coherent]: the bus address of the zeroed buffer, or
    none.  The result is the return code, the register file, and the
    fields [msi_page] and [msi_data] when they are set. *)
Definition cdns_pcie_msi_init (link_id : Z) (dma : option Z) (syscon : regmap)
  : Z * regmap * option (msi_mem * Z) :=
  match dma with
  | None => (-1, syscon, None)
  | Some msi_data =>
      let msi_page : msi_mem := fun _ => 0 in
      let msi_target := wrap64 msi_data in
      if link_id =? 1 then
        let syscon := regmap_write syscon CDNS_PCIE_IRS_REG0868
                                   (Kernel.lower_32_bits msi_target) in
        let syscon := regmap_write syscon CDNS_PCIE_IRS_REG086C
                                   (Kernel.upper_32_bits msi_target) in
        let value := regmap_read syscon CDNS_PCIE_IRS_REG080C in
        let value := Z.lor (Z.land value 0xffff0000) MAX_MSI_IRQS in
        let syscon := regmap_write syscon CDNS_PCIE_IRS_REG080C value in
        (0, syscon, Some (msi_page, msi_data))
      else
        let syscon := regmap_write syscon CDNS_PCIE_IRS_REG0860
                                   (Kernel.lower_32_bits msi_target) in
        let syscon := regmap_write syscon CDNS_PCIE_IRS_REG0864
                                   (Kernel.upper_32_bits msi_target) in
        let value := regmap_read syscon CDNS_PCIE_IRS_REG085C in
        let value := Z.lor (Z.land value 0x0000ffff) (Z.shiftl MAX_MSI_IRQS 16) in
        let syscon := regmap_write syscon CDNS_PCIE_IRS_REG085C value in
        (0, syscon, Some (msi_page, msi_data))
  end.

End MSIHost.

(* ================================================================= *)
(** ** The top-level interrupt aggregator *)

Module TopIntc.

Import MSI.

Definition MAX_IRQ_NUMBER : Z := 32.

(** The fields of [struct top_intc_data] the interrupt logic works on;
    the arrays, of [MAX_IRQ_NUMBER] elements, by index. *)
Record top_intc_data : Type := mk_top_intc_data {
  irq_num : Z;
  reg_bitwidth : Z;
  irq_bitmap : Z;
  reg_clr : Z;
  reg_set_phys : Z;
  plic_hwirqs : Z -> Z;
  tic_to_plic : Z -> Z
}.

(** Return code, driver state and interrupt descriptors afterwards. *)
Definition top_intc_domain_alloc (data : top_intc_data) (t : irq_table)
           (virq nr_irqs : Z) : Z * top_intc_data * irq_table :=
  let '(ret, bitmap) :=
    bitmap_find_free_region (irq_bitmap data) (irq_num data) (order_base_2 nr_irqs) in
  let data := mk_top_intc_data (irq_num data) (reg_bitwidth data) bitmap
                               (reg_clr data) (reg_set_phys data)
                               (plic_hwirqs data) (tic_to_plic data) in
  if ret <? 0 then (- ENOSPC, data, t)
  else
    let hwirq := ret in
    let '(data, t) :=
      iterate (Z.to_nat nr_irqs) 0
        (fun i '(data, t) =>
           (mk_top_intc_data (irq_num data) (reg_bitwidth data) (irq_bitmap data)
              (reg_clr data) (reg_set_phys data) (plic_hwirqs data)
              (fun k => if k =? hwirq + i
                        then Kernel.to_int (plic_hwirqs data (hwirq + i))
                        else tic_to_plic data k),
            irq_domain_set_info (wrap32 (virq + i)) (hwirq + i) t))
        (data, t) in
    (0, data, t).

(** [None]: no descriptor for [virq], the release dereferences null. *)
Definition top_intc_domain_free (data : top_intc_data) (t : irq_table)
           (virq nr_irqs : Z) : option top_intc_data :=
  match irq_domain_get_irq_data t virq with
  | None => None
  | Some hwirq =>
      Some (mk_top_intc_data (irq_num data) (reg_bitwidth data)
              (bitmap_release_region (irq_bitmap data) hwirq (order_base_2 nr_irqs))
              (reg_clr data) (reg_set_phys data) (plic_hwirqs data)
              (tic_to_plic data))
  end.

(** The write of [top_intc_ack_irq] to the clear registers, which are
    an array of 32-bit words at [reg_clr]; the acknowledgement it then
    passes to the parent chip is outside the driver. *)
Definition top_intc_ack_irq (data : top_intc_data) (hwirq : Z) (io : regmap)
  : res regmap :=
  reg_off <- udiv hwirq (wrap64 (reg_bitwidth data)) ;;
  let reg_off := Kernel.to_int reg_off in
  let bit_off :=
    Kernel.to_int (hwirq - wrap64 (Kernel.to_int (reg_bitwidth data * reg_off))) in
  Ok (Kernel.writel (Z.shiftl 1 bit_off) (reg_clr data + 4 * reg_off) io).

Definition top_intc_setup_msi_msg (data : top_intc_data) (hwirq : Z)
  : MSIHost.msi_msg :=
  {| MSIHost.address_lo := Kernel.lower_32_bits (reg_set_phys data);
     MSIHost.address_hi := Kernel.upper_32_bits (reg_set_phys data);
     MSIHost.data := wrap32 (Z.shiftl 1 hwirq) |}.

(** [for (i = 0; i < irq_num; i++) if (tic_to_plic[i] == plic_hwirq)
    break;]: the value of [i] after the loop. *)
Fixpoint tic_scan (count : nat) (i : Z) (tic_to_plic : Z -> Z) (plic_hwirq : Z) : Z :=
  match count with
  | O => i
  | S n =>
      if wrap64 (tic_to_plic i) =? plic_hwirq then i
      else tic_scan n (i + 1) tic_to_plic plic_hwirq
  end.

(** [top_intc_irq_handler] for the interrupt [plic_hwirq] of the
    parent controller: the virtual IRQs handed to
    [generic_handle_irq] and the register file afterwards. *)
Definition top_intc_irq_handler (data : top_intc_data) (irq_find_mapping : Z -> Z)
           (plic_hwirq : Z) (io : regmap) : list Z * regmap :=
  let i := tic_scan (Z.to_nat (irq_num data)) 0 (tic_to_plic data) plic_hwirq in
  if i <? irq_num data then
    let top_intc_hwirq := i in
    let top_intc_irq := irq_find_mapping top_intc_hwirq in
    if negb (top_intc_irq =? 0) then ([top_intc_irq], io) else ([], io)
  else
    ([], Kernel.writel (Z.shiftl 1 (wrap64 (plic_hwirq - plic_hwirqs data 0)))
                       (reg_clr data) io).

End TopIntc.

(* ================================================================= *)
(** ** Statements about the aggregator *)

Module TopIntcSpec.

Import TopIntc.

(** The reverse table holds, for every slot, nothing or the PLIC
    number of that slot; the PLIC numbers of the slots are positive,
    fit an [int] and are distinct. *)
Definition reverse_table_ok (data : top_intc_data) : Prop :=
  (forall i, 0 <= i < irq_num data ->
             tic_to_plic data i = 0 \/ tic_to_plic data i = plic_hwirqs data i) /\
  (forall i, 0 <= i < irq_num data -> 0 < plic_hwirqs data i < 2 ^ 31) /\
  (forall i k, 0 <= i < irq_num data -> 0 <= k < irq_num data ->
               plic_hwirqs data i = plic_hwirqs data k -> i = k).

End TopIntcSpec.

(* ================================================================= *)
(** * Properties *)

Import SG2042 PllSpec MSI MsiSpec.

(** ** The control word *)

Section ControlWord.

Lemma land_small_mask (x n : Z) :
  0 <= n -> 0 <= x < 2 ^ n -> Z.land x (Z.ones n) = x.
Proof.
  intros Hn Hx. rewrite Z.land_ones by assumption. apply Z.mod_small; assumption.
Qed.

Lemma field_masks :
  PLLCTRL_FBDIV_MASK = Z.ones 12 /\ PLLCTRL_POSTDIV2_MASK = Z.ones 3 /\
  PLLCTRL_POSTDIV1_MASK = Z.ones 3 /\ PLLCTRL_REFDIV_MASK = Z.ones 6.
Proof. repeat split; reflexivity. Qed.

Lemma testbit_high (b n i : Z) :
  0 <= n -> 0 <= b < 2 ^ n -> n <= i -> Z.testbit b i = false.
Proof.
  intros Hn Hb Hi.
  rewrite <- (Z.mod_small b (2 ^ n)) by assumption.
  apply Z.mod_pow2_bits_high. lia.
Qed.

(** Or-ing a word whose low [n] bits are clear with a word of at most
    [n] bits adds them. *)
Lemma lor_disjoint_add (a b n : Z) :
  0 <= n -> a mod 2 ^ n = 0 -> 0 <= b < 2 ^ n -> Z.lor a b = a + b.
Proof.
  intros Hn Ha Hb. apply Z.or_to_plus.
  apply Z.bits_inj'. intros i Hi.
  rewrite Z.land_spec, Z.bits_0.
  destruct (Z.lt_ge_cases i n) as [Hlt | Hge].
  - rewrite <- (Z.mod_pow2_bits_low a n i) by lia.
    rewrite Ha, Z.bits_0. reflexivity.
  - rewrite (testbit_high b n i) by assumption.
    apply andb_false_r.
Qed.

Variable p : pll_ctrl.
Hypothesis Hfbdiv : 0 <= fbdiv p < 2 ^ 12.
Hypothesis Hpostdiv1 : 0 <= postdiv1 p < 2 ^ 3.
Hypothesis Hpostdiv2 : 0 <= postdiv2 p < 2 ^ 3.
Hypothesis Hrefdiv : 0 <= refdiv p < 2 ^ 6.

Lemma encode_layout :
  sg2042_pll_ctrl_encode p =
  fbdiv p * 2 ^ 16 + postdiv2 p * 2 ^ 12 + postdiv1 p * 2 ^ 8 + refdiv p.
Proof.
  unfold sg2042_pll_ctrl_encode.
  destruct field_masks as (-> & -> & -> & ->).
  rewrite !land_small_mask by lia.
  unfold PLLCTRL_FBDIV_SHIFT, PLLCTRL_POSTDIV2_SHIFT, PLLCTRL_POSTDIV1_SHIFT,
    PLLCTRL_REFDIV_SHIFT.
  rewrite !Z.shiftl_mul_pow2 by lia.
  change (2 ^ 0) with 1. rewrite Z.mul_1_r.
  rewrite (lor_disjoint_add (fbdiv p * 2 ^ 16) (postdiv2 p * 2 ^ 12) 16)
    by (try apply Z_mod_mult; lia).
  rewrite (lor_disjoint_add _ (postdiv1 p * 2 ^ 8) 12)
    by (try (Z.div_mod_to_equations; lia); lia).
  rewrite (lor_disjoint_add _ (refdiv p) 8)
    by (try (Z.div_mod_to_equations; lia); lia).
  unfold wrap32. apply Z.mod_small. lia.
Qed.

Lemma mango_encode_same :
  Mango.ENCODE_PLL_CTRL (fbdiv p) (postdiv1 p) (postdiv2 p) (refdiv p) =
  sg2042_pll_ctrl_encode p.
Proof.
  unfold Mango.ENCODE_PLL_CTRL, sg2042_pll_ctrl_encode.
  destruct field_masks as (-> & -> & -> & ->).
  unfold PLLCTRL_FBDIV_SHIFT, PLLCTRL_POSTDIV2_SHIFT, PLLCTRL_POSTDIV1_SHIFT,
    PLLCTRL_REFDIV_SHIFT.
  rewrite (Z.shiftl_0_r (Z.land (refdiv p) (Z.ones 6))). reflexivity.
Qed.

Lemma decode_encode (q : pll_ctrl) :
  sg2042_pll_ctrl_decode (sg2042_pll_ctrl_encode p) q =
  mk_pll_ctrl (freq q) (fbdiv p) (postdiv1 p) (postdiv2 p) (refdiv p).
Proof.
  unfold sg2042_pll_ctrl_decode.
  rewrite encode_layout.
  destruct field_masks as (-> & -> & -> & ->).
  unfold PLLCTRL_FBDIV_SHIFT, PLLCTRL_POSTDIV2_SHIFT, PLLCTRL_POSTDIV1_SHIFT,
    PLLCTRL_REFDIV_SHIFT.
  rewrite !Z.shiftr_div_pow2, !Z.land_ones by lia.
  f_equal; Z.div_mod_to_equations; lia.
Qed.

End ControlWord.

(** C3. For every setting [p] whose dividers fit their fields (FBDIV in
    12 bits, POSTDIV1 and POSTDIV2 in 3 bits each, REFDIV in 6 bits),
    decoding the encoded control word into any struct [q] fills the
    four divider fields of [q] with those of [p] (the frequency, which
    the word does not carry, stays as [q] had it), so that decoding
    into [p] itself gives [p] back; the word carries FBDIV at bits
    27..16, POSTDIV2 at bits 14..12, POSTDIV1 at bits 10..8 and REFDIV
    at bits 5..0; and the packing macro of the older revision builds
    the same word. *)
Theorem pll_ctrl_round_trip (p : pll_ctrl) :
  0 <= fbdiv p < 2 ^ 12 -> 0 <= postdiv1 p < 2 ^ 3 ->
  0 <= postdiv2 p < 2 ^ 3 -> 0 <= refdiv p < 2 ^ 6 ->
  (forall q : pll_ctrl,
      sg2042_pll_ctrl_decode (sg2042_pll_ctrl_encode p) q =
      mk_pll_ctrl (freq q) (fbdiv p) (postdiv1 p) (postdiv2 p) (refdiv p)) /\
  sg2042_pll_ctrl_decode (sg2042_pll_ctrl_encode p) p = p /\
  sg2042_pll_ctrl_encode p =
    fbdiv p * 2 ^ 16 + postdiv2 p * 2 ^ 12 + postdiv1 p * 2 ^ 8 + refdiv p /\
  Mango.ENCODE_PLL_CTRL (fbdiv p) (postdiv1 p) (postdiv2 p) (refdiv p) =
    sg2042_pll_ctrl_encode p.
Proof.
  intros Hf H1 H2 Hr. split; [| split; [| split]].
  - intros q. apply decode_encode; assumption.
  - rewrite decode_encode by assumption. destruct p; reflexivity.
  - apply encode_layout; assumption.
  - apply mango_encode_same.
Qed.

Lemma pll_ctrl_round_trip_witness :
  let p := mk_pll_ctrl 1000000000 40 1 1 1 in
  sg2042_pll_ctrl_encode p = 0x281101 /\
  sg2042_pll_ctrl_decode (sg2042_pll_ctrl_encode p) pll_ctrl_zero =
    mk_pll_ctrl 0 40 1 1 1 /\
  sg2042_pll_ctrl_decode (sg2042_pll_ctrl_encode p) p = p.
Proof.
  intro p.
  destruct (pll_ctrl_round_trip p) as (Hany & Hself & _); try (simpl; lia).
  split; [reflexivity | split; [exact (Hany pll_ctrl_zero) | exact Hself]].
Defined.

(** ** The post-divider derivation *)

Section Postdiv.

Lemma postdiv_search_entry (d0 d1 product : Z) :
  In (d0, d1, product) postdiv1_2 ->
  postdiv_search product postdiv1_2 = Some (d1, d0).
Proof.
  unfold postdiv1_2. simpl.
  intros H. repeat destruct H as [H | H]; try contradiction;
    inversion H; subst; reflexivity.
Qed.

Lemma postdiv_search_past (tmp0 : Z) :
  49 < tmp0 -> postdiv_search tmp0 postdiv1_2 = None.
Proof.
  intros H. unfold postdiv1_2. simpl.
  repeat match goal with
         | |- context [?a >? ?b] => destruct (Z.gtb_spec a b); [| lia]
         end.
  reflexivity.
Qed.

(** Whatever the search returns is a swapped table entry at or above
    the product sought, so both dividers lie in 2..7. *)
Lemma postdiv_search_range (tmp0 p1 p2 : Z) :
  postdiv_search tmp0 postdiv1_2 = Some (p1, p2) ->
  2 <= p1 <= 7 /\ 2 <= p2 <= 7 /\ tmp0 <= p1 * p2.
Proof.
  unfold postdiv1_2. simpl.
  repeat match goal with
         | |- context [?a >? ?b] => destruct (Z.gtb_spec a b)
         end;
    intros Hsome; inversion Hsome; subst; lia.
Qed.

Lemma table_products_in_range (d0 d1 product : Z) :
  In (d0, d1, product) postdiv1_2 -> 8 <= product <= 49 /\ product = d0 * d1.
Proof.
  unfold postdiv1_2. simpl.
  intros H. repeat destruct H as [H | H]; try contradiction;
    inversion H; subst; lia.
Qed.

End Postdiv.

(** C7. For every call of the post-divider derivation, with [P] the
    product it computes: if [P] is in 1..7 the result is [(P, 1)]; if
    [P] is in 8..49 and equals the product of a table entry, the result
    is that entry's pair in swapped order (POSTDIV1 is the entry's
    second column, POSTDIV2 its first); and if [P] exceeds 49 the
    derivation reports an error.  This holds of the derivation of both
    revisions. *)
Theorem postdiv_derivation (rate prate fb rd P : Z) :
  postdiv_product rate prate fb rd = Ok P ->
  (1 <= P <= 7 ->
   sg2042_pll_get_postdiv_1_2 rate prate fb rd = Ok (Some (P, 1)) /\
   Mango.__pll_get_postdiv_1_2 rate prate fb rd = Ok (Some (P, 1))) /\
  (forall d0 d1, 8 <= P <= 49 -> In (d0, d1, P) postdiv1_2 ->
   sg2042_pll_get_postdiv_1_2 rate prate fb rd = Ok (Some (d1, d0)) /\
   Mango.__pll_get_postdiv_1_2 rate prate fb rd = Ok (Some (d1, d0))) /\
  (49 < P ->
   sg2042_pll_get_postdiv_1_2 rate prate fb rd = Ok None /\
   Mango.__pll_get_postdiv_1_2 rate prate fb rd = Ok None).
Proof.
  intros HP.
  unfold sg2042_pll_get_postdiv_1_2, Mango.__pll_get_postdiv_1_2.
  rewrite HP. cbn [bind]. repeat split.
  - destruct (Z.leb_spec P 7); [| lia].
    unfold wrap32. rewrite Z.mod_small by lia. reflexivity.
  - destruct (Z.leb_spec P 7); [| lia].
    unfold wrap32. rewrite Z.mod_small by lia. reflexivity.
  - destruct (Z.leb_spec P 7); [lia |].
    rewrite (postdiv_search_entry d0 d1 P) by assumption. reflexivity.
  - destruct (Z.leb_spec P 7); [lia |].
    rewrite (postdiv_search_entry d0 d1 P) by assumption. reflexivity.
  - destruct (Z.leb_spec P 7); [lia |].
    rewrite postdiv_search_past by assumption. reflexivity.
  - destruct (Z.leb_spec P 7); [lia |].
    rewrite postdiv_search_past by assumption. reflexivity.
Qed.

Lemma postdiv_derivation_witness :
  postdiv_product 100000000 25000000 32 1 = Ok 8 /\
  sg2042_pll_get_postdiv_1_2 100000000 25000000 32 1 = Ok (Some (4, 2)).
Proof.
  split; [reflexivity |].
  apply (postdiv_derivation 100000000 25000000 32 1 8 eq_refl);
    [lia | simpl; auto].
Defined.

(** ** The rate solver *)

(** *** Loops with an early exit *)

Lemma for_range_inv {St : Type} (I : Z -> St -> Prop) (R : St -> Prop) (T : Prop)
      (body : Z -> St -> ctl St) :
  forall (count : nat) (lo : Z) (s : St),
    I lo s ->
    (forall i s, lo <= i < lo + Z.of_nat count -> I i s ->
       match body i s with
       | Next s' => I (i + 1) s'
       | Return s' => R s'
       | Trap => T
       end) ->
    match for_range count lo body s with
    | Next s' => I (lo + Z.of_nat count) s'
    | Return s' => R s'
    | Trap => T
    end.
Proof.
  induction count as [| n IH]; intros lo s Hinit Hstep.
  - simpl. rewrite Z.add_0_r. exact Hinit.
  - simpl for_range.
    pose proof (Hstep lo s ltac:(lia) Hinit) as Hlo.
    destruct (body lo s) as [s' | s' |]; try exact Hlo.
    rewrite Nat2Z.inj_succ.
    replace (lo + Z.succ (Z.of_nat n)) with (lo + 1 + Z.of_nat n) by lia.
    apply IH; [exact Hlo |].
    intros i s0 Hi. apply Hstep. lia.
Qed.

Lemma ctl_weaken {St : Type} (c : ctl St) (P Q R : St -> Prop) (T : Prop) :
  (forall s, P s -> Q s) ->
  match c with Next s' => P s' | Return s' => R s' | Trap => T end ->
  match c with Next s' => Q s' | Return s' => R s' | Trap => T end.
Proof. intros HPQ. destruct c; auto. Qed.

(** A loop whose rounds leave the state alone up to one that faults. *)
Lemma for_range_trap {St : Type} (body : Z -> St -> ctl St) (s : St) (k : nat) :
  forall (count : nat) (lo : Z),
    (k < count)%nat ->
    (forall i, lo <= i < lo + Z.of_nat k -> body i s = Next s) ->
    body (lo + Z.of_nat k) s = Trap ->
    for_range count lo body s = Trap.
Proof.
  induction k as [| k IH]; intros count lo Hlt Hskip Htrap;
    (destruct count as [| n]; [lia |]); simpl for_range.
  - simpl in Htrap. rewrite Z.add_0_r in Htrap. rewrite Htrap. reflexivity.
  - rewrite (Hskip lo) by lia.
    apply IH; [lia | |].
    + intros i Hi. apply Hskip. lia.
    + rewrite <- Htrap. f_equal. lia.
Qed.

(** *** The search of the SG2042 revision *)

Section Solver.

Variable req : Z.
Hypothesis Hreq : PLL_FOUTPOSTDIV_MIN <= req <= PLL_FOUTPOSTDIV_MAX.

Local Notation "'fref'" := PLL_FREF_SG2042.

Lemma req_pos : 0 < req.
Proof. unfold PLL_FOUTPOSTDIV_MIN, MHZ, KHZ in Hreq. lia. Qed.

Lemma abs_diff_nonneg (a b : Z) : 0 <= abs_diff a b.
Proof. unfold abs_diff. destruct (Z.gtb_spec a b); lia. Qed.

Lemma abs_diff_zero (a : Z) : 0 <= a -> abs_diff 0 a = a.
Proof. intros. unfold abs_diff. destruct (Z.gtb_spec 0 a); lia. Qed.

Lemma abs_diff_same (a : Z) : abs_diff a a = 0.
Proof. unfold abs_diff. destruct (Z.gtb_spec a a); lia. Qed.

Lemma do_div_ok (n d : Z) : d <> 0 -> do_div n d = Ok (n / d).
Proof.
  intros Hd. unfold do_div, udiv. destruct (Z.eqb_spec d 0); [contradiction | reflexivity].
Qed.

Lemma foutvco_exact (rd fb : Z) :
  REFDIV_MIN <= rd <= REFDIV_MAX -> FBDIV_MIN <= fb <= FBDIV_MAX ->
  do_div (wrap64 (fref * fb)) rd = Ok (fref * fb / rd).
Proof.
  unfold REFDIV_MIN, REFDIV_MAX, FBDIV_MIN, FBDIV_MAX. intros Hrd Hfb.
  rewrite do_div_ok by lia. unfold wrap64, PLL_FREF_SG2042, MHZ, KHZ.
  rewrite Z.mod_small by lia. reflexivity.
Qed.

(** The dividers the derivation returns, for a rate above zero. *)
Lemma postdiv_range (rate prate fb rd p1 p2 : Z) :
  0 < rate -> 0 < rd -> 0 <= prate -> 0 <= fb ->
  sg2042_pll_get_postdiv_1_2 rate prate fb rd = Ok (Some (p1, p2)) ->
  0 <= p1 <= 7 /\ 1 <= p2 <= 7 /\
  (exists tmp0, postdiv_product rate prate fb rd = Ok tmp0 /\
                (tmp0 <= 7 -> p1 = tmp0 /\ p2 = 1) /\ (7 < tmp0 -> 2 <= p1)).
Proof.
  intros Hrate Hrd Hprate Hfb. unfold sg2042_pll_get_postdiv_1_2, postdiv_product.
  rewrite !do_div_ok by lia. cbn [bind]. rewrite do_div_ok by lia. cbn [bind].
  set (tmp0 := wrap64 (prate / rd * fb) / rate).
  assert (0 <= tmp0).
  { apply Z.div_pos; [| lia]. unfold wrap64. apply Z.mod_pos_bound. lia. }
  destruct (Z.leb_spec tmp0 7) as [Hle | Hgt]; intros Heq.
  - inversion Heq; subst. unfold wrap32. rewrite Z.mod_small by lia.
    repeat split; try lia. exists tmp0. repeat split; lia.
  - inversion Heq as [Hs]. apply postdiv_search_range in Hs.
    repeat split; try lia. exists tmp0. repeat split; lia.
Qed.

Lemma good_bound (best : pll_ctrl) : good req best -> abs_diff (freq best) req <= req.
Proof.
  intros [-> | [_ H]]; [| lia]. simpl. rewrite abs_diff_zero; pose proof req_pos; lia.
Qed.

Lemma examined_functional (rd fb p1 p2 f q1 q2 g : Z) :
  examined req rd fb p1 p2 f -> examined req rd fb q1 q2 g ->
  p1 = q1 /\ p2 = q2 /\ f = g.
Proof.
  intros (_ & _ & _ & _ & Hp & _ & Hf) (_ & _ & _ & _ & Hq & _ & Hg).
  rewrite Hp in Hq. inversion Hq; subst. auto.
Qed.

Lemma fbdiv_body_step (r j : Z) (best : pll_ctrl) :
  REFDIV_MIN <= r <= REFDIV_MAX -> FBDIV_MIN <= j <= FBDIV_MAX ->
  10 < fref / r ->
  inner_inv req r j best ->
  match fbdiv_body req fref r j best with
  | Next s' => inner_inv req r (j + 1) s'
  | Return s' => exact_match req s'
  | Trap => True
  end.
Proof.
  intros Hr Hj Hfloor [Hgood Hleast].
  unfold fbdiv_body. rewrite foutvco_exact by assumption.
  assert (Hkeep : (forall p1 p2 f, examined req r j p1 p2 f ->
                                   abs_diff (freq best) req <= abs_diff f req) ->
                  inner_inv req r (j + 1) best).
  { intros Hnew. split; [assumption |].
    intros rd fb p1 p2 f Hex Hseen.
    destruct (Z.eq_dec fb j) as [-> | Hne].
    - destruct Hseen as [Hlt | [-> _]].
      + apply (Hleast _ _ _ _ _ Hex). left; lia.
      + apply (Hnew _ _ _ Hex).
    - apply (Hleast _ _ _ _ _ Hex). lia. }
  destruct (Z.ltb_spec (fref * j / r) PLL_FOUTVCO_MIN) as [Hlo | Hlo]; cbn [orb].
  { apply Hkeep. intros p1 p2 f (_ & _ & _ & Hv & _).  lia. }
  destruct (Z.gtb_spec (fref * j / r) PLL_FOUTVCO_MAX) as [Hhi | Hhi].
  { apply Hkeep. intros p1 p2 f (_ & _ & _ & Hv & _).  lia. }
  destruct (sg2042_pll_get_postdiv_1_2 req fref j r) as [[[p1 p2] |] |] eqn:Hpd.
  - destruct (postdiv_range req fref j r p1 p2) as (Hp1 & Hp2 & _);
      try assumption.
    { exact req_pos. }
    { unfold REFDIV_MIN in Hr. lia. }
    { unfold PLL_FREF_SG2042, MHZ, KHZ. lia. }
    { unfold FBDIV_MIN in Hj. lia. }
    assert (Hw : wrap32 (p1 * p2) = p1 * p2).
    { unfold wrap32. apply Z.mod_small. nia. }
    rewrite Hw. unfold do_div, udiv.
    destruct (Z.eqb_spec (p1 * p2) 0) as [Hz | Hnz]; [exact I |].
    set (f := fref * j / r / (p1 * p2)).
    assert (Hex : examined req r j p1 p2 f).
    { unfold examined. repeat split; try lia; assumption. }
    destruct (Z.ltb_spec (abs_diff f req) (abs_diff (freq best) req)) as [Hbetter | Hworse].
    + pose proof (good_bound best Hgood) as Hb.
      assert (Hinv : inner_inv req r (j + 1) (mk_pll_ctrl f j p1 p2 r)).
      { split.
        - right. simpl. split; [exact Hex | lia].
        - intros rd fb q1 q2 g Hex' Hseen. simpl.
          destruct (Z.eq_dec fb j) as [-> | Hne].
          + destruct Hseen as [Hlt | [-> _]].
            * assert (abs_diff (freq best) req <= abs_diff g req)
                by (apply (Hleast _ _ _ _ _ Hex'); left; lia).
              lia.
            * destruct (examined_functional _ _ _ _ _ _ _ _ Hex Hex') as (_ & _ & ->).
              lia.
          + assert (abs_diff (freq best) req <= abs_diff g req)
              by (apply (Hleast _ _ _ _ _ Hex'); lia).
            lia. }
      destruct (Z.eqb_spec f req) as [Heq | Hneq].
      * split; simpl; assumption.
      * exact Hinv.
    + apply Hkeep. intros q1 q2 g Hex'.
      destruct (examined_functional _ _ _ _ _ _ _ _ Hex Hex') as (_ & _ & ->).
      lia.
  - apply Hkeep. intros q1 q2 g (_ & _ & _ & _ & Hq & _). 
    rewrite Hpd in Hq. discriminate Hq.
  - exact I.
Qed.

Lemma refdiv_body_step (r : Z) (best : pll_ctrl) :
  REFDIV_MIN <= r <= REFDIV_MAX ->
  outer_inv req r best ->
  match refdiv_body req fref r best with
  | Next s' => outer_inv req (r + 1) s'
  | Return s' => exact_match req s'
  | Trap => True
  end.
Proof.
  intros Hr [Hgood Hleast]. unfold refdiv_body.
  rewrite do_div_ok by (unfold REFDIV_MIN in Hr; lia).
  destruct (Z.leb_spec (fref / r) 10) as [Hfloor | Hfloor].
  - split; [assumption |].
    intros rd fb p1 p2 f Hex Hseen.
    destruct (Z.eq_dec rd r) as [-> | Hne].
    + destruct Hex as (_ & _ & Hf & _).  lia.
    + apply (Hleast _ _ _ _ _ Hex). lia.
  - apply ctl_weaken with (P := inner_inv req r (FBDIV_MIN + Z.of_nat (Z.to_nat (FBDIV_MAX + 1 - FBDIV_MIN)))).
    + intros s [Hg Hl]. split; [assumption |].
      intros rd fb p1 p2 f Hex Hseen.
      apply (Hl _ _ _ _ _ Hex).
      destruct (Z.eq_dec rd r) as [-> | Hne]; [right | left; lia].
      split; [reflexivity |]. destruct Hex as (_ & Hfb & _).
      unfold FBDIV_MIN, FBDIV_MAX in *. lia.
    + apply for_range_inv.
      * split; [assumption |].
        intros rd fb p1 p2 f Hex [Hlt | [-> Hlt]].
        -- apply (Hleast _ _ _ _ _ Hex). assumption.
        -- destruct Hex as (_ & Hfb & _). lia.
      * intros j s Hj Hinv. apply fbdiv_body_step; try assumption.
        unfold FBDIV_MIN, FBDIV_MAX in *. lia.
Qed.

Lemma search_result :
  match for_range (Z.to_nat (REFDIV_MAX + 1 - REFDIV_MIN)) REFDIV_MIN
                  (refdiv_body req fref) pll_ctrl_zero with
  | Next s' => good req s' /\ least_among req (fun _ _ => True) s'
  | Return s' => exact_match req s'
  | Trap => True
  end.
Proof.
  apply ctl_weaken with (P := outer_inv req (REFDIV_MIN + Z.of_nat (Z.to_nat (REFDIV_MAX + 1 - REFDIV_MIN)))).
  - intros s [Hg Hl]. split; [assumption |].
    intros rd fb p1 p2 f Hex _. apply (Hl _ _ _ _ _ Hex).
    destruct Hex as (Hrd & _). unfold REFDIV_MIN, REFDIV_MAX in *. lia.
  - apply for_range_inv.
    + split; [left; reflexivity |].
      intros rd fb p1 p2 f (Hrd & _) Hlt. lia.
    + intros r s Hr Hinv. apply refdiv_body_step; [| assumption].
      unfold REFDIV_MIN, REFDIV_MAX in *. lia.
Qed.

(** What the solver returns when the search completes. *)
Lemma solver_returns_least (best0 : pll_ctrl) (ret : Z) (best : pll_ctrl) :
  sg2042_get_pll_ctl_setting best0 req fref = Ok (ret, best) ->
  (ret = 0 /\
   examined req (refdiv best) (fbdiv best) (postdiv1 best) (postdiv2 best) (freq best) /\
   abs_diff (freq best) req < req /\
   forall rd fb p1 p2 f, examined req rd fb p1 p2 f ->
                         abs_diff (freq best) req <= abs_diff f req)
  \/ (ret = - EINVAL /\
      forall rd fb p1 p2 f, examined req rd fb p1 p2 f -> req <= abs_diff f req).
Proof.
  unfold sg2042_get_pll_ctl_setting.
  rewrite Z.eqb_refl. cbn [negb].
  destruct (Z.ltb_spec req PLL_FOUTPOSTDIV_MIN) as [Hlo | _]; [lia |].
  destruct (Z.gtb_spec req PLL_FOUTPOSTDIV_MAX) as [Hhi | _]; [lia |].
  cbn [orb]. pose proof search_result as Hs.
  destruct (for_range _ _ _ _) as [s | s |]; [| | discriminate].
  - destruct Hs as [Hgood Hleast].
    destruct (Z.eqb_spec (freq s) 0) as [Hz | Hnz]; intros Heq; injection Heq as <- <-.
    + right. split; [reflexivity |].
      intros rd fb p1 p2 f Hex.
      pose proof (Hleast _ _ _ _ _ Hex I) as Hle. rewrite Hz in Hle.
      rewrite abs_diff_zero in Hle; pose proof req_pos; lia.
    + left. destruct Hgood as [-> | [Hex Hlt]]; [contradiction Hnz; reflexivity |].
      split; [reflexivity | split; [exact Hex | split; [exact Hlt |]]].
      intros rd fb p1 p2 f Hex'. apply (Hleast _ _ _ _ _ Hex' I).
  - destruct Hs as [Hex Hfreq]. intros Heq; injection Heq as <- <-.
    left.
    split; [reflexivity | split; [exact Hex |]].
    rewrite Hfreq, abs_diff_same.
    split; [exact req_pos |].
    intros. apply abs_diff_nonneg.
Qed.

(** *** The search completes for targets up to 799 999 680 Hz *)

Hypothesis Hsafe : req <= safe_target_max.

Lemma truncated_vco_bound (r j : Z) :
  REFDIV_MIN <= r <= REFDIV_MAX -> FBDIV_MIN <= j <= FBDIV_MAX ->
  PLL_FOUTVCO_MIN <= fref * j / r ->
  safe_target_max <= fref / r * j.
Proof.
  unfold REFDIV_MIN, REFDIV_MAX, FBDIV_MIN, FBDIV_MAX, PLL_FOUTVCO_MIN,
    safe_target_max, PLL_FREF_SG2042, MHZ, KHZ.
  intros Hr Hj Hv.
  change (25 * (1000 * 1000)) with 25000000 in *.
  change (800 * (1000 * 1000)) with 800000000 in *.
  assert (Hsplit : 25000000 * j / r <= 25000000 / r * j + j).
  { apply Z.div_le_upper_bound; [lia |].
    pose proof (Z.div_mod 25000000 r ltac:(lia)) as Hdm.
    pose proof (Z.mod_pos_bound 25000000 r ltac:(lia)) as Hm.
    nia. }
  lia.
Qed.

Lemma truncated_product_small (r j : Z) :
  REFDIV_MIN <= r <= REFDIV_MAX -> FBDIV_MIN <= j <= FBDIV_MAX ->
  0 <= fref / r * j < 2 ^ 64.
Proof.
  unfold REFDIV_MIN, REFDIV_MAX, FBDIV_MIN, FBDIV_MAX, PLL_FREF_SG2042, MHZ, KHZ.
  intros Hr Hj.
  change (25 * (1000 * 1000)) with 25000000.
  assert (Hq : 0 <= 25000000 / r <= 25000000).
  { split; [apply Z.div_pos; lia |].
    apply Z.div_le_upper_bound; nia. }
  set (q := 25000000 / r) in *. nia.
Qed.

Lemma fbdiv_body_no_trap (r j : Z) (best : pll_ctrl) :
  REFDIV_MIN <= r <= REFDIV_MAX -> FBDIV_MIN <= j <= FBDIV_MAX ->
  match fbdiv_body req fref r j best with
  | Trap => False
  | _ => True
  end.
Proof.
  intros Hr Hj. unfold fbdiv_body. rewrite foutvco_exact by assumption.
  destruct (Z.ltb_spec (fref * j / r) PLL_FOUTVCO_MIN) as [Hlo | Hlo]; cbn [orb];
    [exact I |].
  destruct (Z.gtb_spec (fref * j / r) PLL_FOUTVCO_MAX) as [Hhi | Hhi]; [exact I |].
  pose proof req_pos as Hpos.
  pose proof (truncated_vco_bound r j Hr Hj Hlo) as Htrunc.
  destruct (sg2042_pll_get_postdiv_1_2 req fref j r) as [[[p1 p2] |] |] eqn:Hpd.
  - destruct (postdiv_range req fref j r p1 p2)
      as (Hp1 & Hp2 & tmp0 & Hprod & Hsmall & Hbig); try assumption.
    { unfold REFDIV_MIN in Hr. lia. }
    { unfold PLL_FREF_SG2042, MHZ, KHZ. lia. }
    { unfold FBDIV_MIN in Hj. lia. }
    assert (Htmp0 : 1 <= tmp0).
    { unfold postdiv_product in Hprod.
      rewrite do_div_ok in Hprod by (unfold REFDIV_MIN in Hr; lia).
      cbn [bind] in Hprod. rewrite do_div_ok in Hprod by lia.
      injection Hprod as <-.
      unfold wrap64.
      rewrite Z.mod_small by (apply truncated_product_small; assumption).
      apply Z.div_le_lower_bound; lia. }
    assert (Hw : wrap32 (p1 * p2) = p1 * p2).
    { unfold wrap32. apply Z.mod_small. nia. }
    rewrite Hw. unfold do_div, udiv.
    destruct (Z.eqb_spec (p1 * p2) 0) as [Hz | Hnz].
    + destruct (Z.le_gt_cases tmp0 7) as [Hle | Hgt].
      * destruct (Hsmall Hle) as [-> ->]. lia.
      * specialize (Hbig Hgt). nia.
    + destruct (_ <? _); [destruct (_ =? _) |]; exact I.
  - exact I.
  - unfold sg2042_pll_get_postdiv_1_2, postdiv_product in Hpd.
    rewrite do_div_ok in Hpd by (unfold REFDIV_MIN in Hr; lia).
    cbn [bind] in Hpd. rewrite do_div_ok in Hpd by lia.
    cbn [bind] in Hpd. destruct (_ <=? 7); discriminate Hpd.
Qed.

Lemma refdiv_body_no_trap (r : Z) (best : pll_ctrl) :
  REFDIV_MIN <= r <= REFDIV_MAX ->
  match refdiv_body req fref r best with
  | Trap => False
  | _ => True
  end.
Proof.
  intros Hr. unfold refdiv_body.
  rewrite do_div_ok by (unfold REFDIV_MIN in Hr; lia).
  destruct (fref / r <=? 10); [exact I |].
  pose proof (for_range_inv (fun _ _ => True) (fun _ => True) False
                (fbdiv_body req fref r)
                (Z.to_nat (FBDIV_MAX + 1 - FBDIV_MIN)) FBDIV_MIN best I) as Hloop.
  destruct (for_range _ _ _ _); [exact I | exact I |].
  apply Hloop. intros j s Hj _.
  pose proof (fbdiv_body_no_trap r j s Hr) as Hb.
  destruct (fbdiv_body req fref r j s); try exact I.
  apply Hb. unfold FBDIV_MIN, FBDIV_MAX in *. lia.
Qed.

Lemma solver_completes (best0 : pll_ctrl) :
  exists ret best, sg2042_get_pll_ctl_setting best0 req fref = Ok (ret, best).
Proof.
  unfold sg2042_get_pll_ctl_setting.
  destruct (negb _); [eauto |].
  destruct (_ || _); [eauto |].
  pose proof (for_range_inv (fun _ _ => True) (fun _ => True) False
                (refdiv_body req fref)
                (Z.to_nat (REFDIV_MAX + 1 - REFDIV_MIN)) REFDIV_MIN pll_ctrl_zero I)
    as Hloop.
  destruct (for_range _ _ _ _) as [s | s |].
  - destruct (freq s =? 0); eauto.
  - eauto.
  - exfalso. apply Hloop. intros r s Hr _.
    pose proof (refdiv_body_no_trap r s) as Hb.
    destruct (refdiv_body req fref r s); try exact I.
    apply Hb. unfold REFDIV_MIN, REFDIV_MAX in *. lia.
Qed.
End Solver.

(** In the SG2042 revision the product of the VCO computation is taken
    on 64 bits and is exact for every 32-bit parent rate. *)
Lemma sg2042_vco_product_exact (parent_rate fb rd : Z) :
  0 <= parent_rate < 2 ^ 32 -> FBDIV_MIN <= fb <= FBDIV_MAX -> rd <> 0 ->
  wrap64 (parent_rate * fb) = parent_rate * fb /\
  do_div (wrap64 (parent_rate * fb)) rd = Ok (parent_rate * fb / rd).
Proof.
  unfold FBDIV_MIN, FBDIV_MAX. intros Hp Hfb Hrd.
  assert (Hw : wrap64 (parent_rate * fb) = parent_rate * fb).
  { unfold wrap64. apply Z.mod_small. nia. }
  split; [exact Hw |].
  rewrite Hw. apply do_div_ok. exact Hrd.
Qed.

(** The rate the driver recomputes from the encoded control word of an
    examined candidate is the output frequency the search recorded. *)
Lemma examined_recalc (req rd fb p1 p2 f : Z) :
  0 < req ->
  examined req rd fb p1 p2 f ->
  sg2042_pll_recalc_rate (sg2042_pll_ctrl_encode (mk_pll_ctrl f fb p1 p2 rd))
                         PLL_FREF_SG2042 = Ok f.
Proof.
  intros Hreq (Hrd & Hfb & _ & _ & Hpd & Hnz & ->).
  unfold REFDIV_MIN, REFDIV_MAX, FBDIV_MIN, FBDIV_MAX in *.
  destruct (postdiv_range req PLL_FREF_SG2042 fb rd p1 p2) as (Hp1 & Hp2 & _);
    try assumption; try lia.
  { unfold PLL_FREF_SG2042, MHZ, KHZ. lia. }
  unfold sg2042_pll_recalc_rate.
  rewrite decode_encode by (cbn [fbdiv postdiv1 postdiv2 refdiv]; lia).
  cbn [fbdiv postdiv1 postdiv2 refdiv].
  assert (Hden : wrap32 (wrap32 (rd * p1) * p2) = rd * (p1 * p2)).
  { unfold wrap32. rewrite (Z.mod_small (rd * p1)) by nia.
    rewrite Z.mod_small by nia. ring. }
  rewrite Hden.
  rewrite (proj1 (sg2042_vco_product_exact PLL_FREF_SG2042 fb rd
                    ltac:(unfold PLL_FREF_SG2042, MHZ, KHZ; lia)
                    ltac:(unfold FBDIV_MIN, FBDIV_MAX; lia) ltac:(lia))).
  rewrite do_div_ok by nia.
  unfold fout. rewrite Z.div_div by nia. reflexivity.
Qed.


(** The solver at 333 MHz, and a combination it does not try. *)
Lemma solver_at_333MHz :
  sg2042_get_pll_ctl_setting pll_ctrl_zero 333000000 PLL_FREF_SG2042 =
  Ok (0, mk_pll_ctrl 333333333 40 3 1 1).
Proof. vm_compute. reflexivity. Qed.

Lemma closer_than_solver_at_333MHz :
  admissible PLL_FREF_SG2042 2 213 2 4 /\
  fout PLL_FREF_SG2042 2 213 2 4 = 332812500.
Proof. unfold admissible. vm_compute. intuition discriminate. Qed.






(** ** Divisions of the solver *)

(** Every target above 800 MHz makes the search of the SG2042 revision
    divide by zero, at REFDIV = 1 and FBDIV = 32. *)
Lemma solver_faults_above_800MHz (best0 : pll_ctrl) (req : Z) :
  800000000 < req <= PLL_FOUTPOSTDIV_MAX ->
  sg2042_get_pll_ctl_setting best0 req PLL_FREF_SG2042 = DivByZero.
Proof.
  intros Hreq. unfold sg2042_get_pll_ctl_setting.
  rewrite Z.eqb_refl. cbn [negb].
  destruct (Z.ltb_spec req PLL_FOUTPOSTDIV_MIN) as [Hlo | _];
    [unfold PLL_FOUTPOSTDIV_MIN, MHZ, KHZ in Hlo; lia |].
  destruct (Z.gtb_spec req PLL_FOUTPOSTDIV_MAX) as [Hhi | _]; [lia |].
  cbn [orb].
  rewrite (for_range_trap (refdiv_body req PLL_FREF_SG2042) pll_ctrl_zero 0);
    [reflexivity | vm_compute; lia | intros i Hi; simpl in Hi; lia |].
  change (REFDIV_MIN + Z.of_nat 0) with 1.
  unfold refdiv_body.
  change (do_div PLL_FREF_SG2042 1) with (Ok 25000000).
  change (25000000 <=? 10) with false. cbv iota.
  apply (for_range_trap _ _ 16); [vm_compute; lia | |].
  - intros i Hi. change FBDIV_MIN with 16 in Hi. change (Z.of_nat 16) with 16 in Hi.
    unfold fbdiv_body.
    rewrite foutvco_exact by (unfold REFDIV_MIN, REFDIV_MAX, FBDIV_MIN, FBDIV_MAX; lia).
    rewrite Z.div_1_r.
    destruct (Z.ltb_spec (PLL_FREF_SG2042 * i) PLL_FOUTVCO_MIN) as [_ | Hge];
      [reflexivity |].
    unfold PLL_FREF_SG2042, PLL_FOUTVCO_MIN, MHZ, KHZ in Hge. lia.
  - change (FBDIV_MIN + Z.of_nat 16) with 32.
    unfold fbdiv_body.
    change (do_div (wrap64 (PLL_FREF_SG2042 * 32)) 1) with (Ok 800000000).
    change (800000000 <? PLL_FOUTVCO_MIN) with false.
    change (800000000 >? PLL_FOUTVCO_MAX) with false. cbn [orb]. cbv iota.
    unfold sg2042_pll_get_postdiv_1_2, postdiv_product.
    change (do_div PLL_FREF_SG2042 1) with (Ok 25000000). cbn [bind].
    change (wrap64 (25000000 * 32)) with 800000000.
    rewrite do_div_ok by lia. cbn [bind].
    rewrite Z.div_small by lia.
    reflexivity.
Qed.

(** C4. A zero divisor is reached for targets inside [fout_min,
    fout_max]: at 1 GHz with the 25 MHz reference, the first pair that
    passes the VCO check (REFDIV = 1, FBDIV = 32, FOUTVCO = 800 MHz)
    gets the post-dividers (0, 1) from the derivation, and the final
    division FOUTVCO / (POSTDIV1 * POSTDIV2) divides by zero; the older
    revision does the same at its first pair. *)
Theorem final_division_by_zero :
  sg2042_pll_get_postdiv_1_2 1000000000 PLL_FREF_SG2042 32 1 = Ok (Some (0, 1)) /\
  do_div 800000000 (wrap32 (0 * 1)) = DivByZero /\
  fbdiv_body 1000000000 PLL_FREF_SG2042 1 32 pll_ctrl_zero = Trap /\
  sg2042_get_pll_ctl_setting pll_ctrl_zero 1000000000 PLL_FREF_SG2042 = DivByZero /\
  Mango.__get_pll_ctl_setting pll_ctrl_zero 1000000000 25000000 = DivByZero.
Proof. repeat split; vm_compute; reflexivity. Qed.

(** C5. The stability check of the code compares FREF / REFDIV, a
    frequency in Hz, with 10: it rejects no REFDIV at all for the
    25 MHz reference, and the solver returns settings whose reference
    input lies below the 10 MHz floor, such as REFDIV = 3 (8.33 MHz)
    for the target 16 MHz. *)
Theorem stability_floor_not_enforced :
  sg2042_get_pll_ctl_setting pll_ctrl_zero 16000000 PLL_FREF_SG2042 =
    Ok (0, mk_pll_ctrl 16326530 96 7 7 3) /\
  PLL_FREF_SG2042 / 3 <= REFDIV_FLOOR /\
  (forall rd, REFDIV_MIN <= rd <= REFDIV_MAX ->
              (PLL_FREF_SG2042 / rd <=? 10) = false).
Proof.
  split; [vm_compute; reflexivity |].
  split; [vm_compute; discriminate |].
  intros rd Hrd. apply Z.leb_gt.
  unfold REFDIV_MIN, REFDIV_MAX, PLL_FREF_SG2042, MHZ, KHZ in *.
  apply Z.lt_le_trans with 11; [lia |].
  apply Z.div_le_lower_bound; lia.
Qed.

(** C6. In the older revision the operands of FREF * FBDIV / REFDIV are
    all [unsigned int]: the product wraps at 32 bits.  With the 25 MHz
    reference, FBDIV = 172 and REFDIV = 2, the code computes
    2 516 352 Hz where the VCO runs at 2150 MHz, and so drops the pair
    as below the VCO range, whatever the target. *)
Theorem mango_vco_product_wraps :
  Mango.FBDIV_MIN <= 172 <= Mango.FBDIV_MAX /\
  2 ^ 32 <= 25000000 * 172 /\
  Mango.foutvco_of 25000000 172 2 = Ok 2516352 /\
  25000000 * 172 / 2 = 2150000000 /\
  (forall req_rate best,
      Mango.fbdiv_body req_rate 25000000 2 172 best = Next best).
Proof.
  repeat split; try (vm_compute; (reflexivity || discriminate)).
Qed.

(** ** Rate application *)

Lemma clear_bit_testbit (v s : Z) :
  0 <= s -> Z.testbit (wrap32 (Z.land v (Z.lnot (Z.shiftl 1 s)))) s = false.
Proof.
  intros Hs. unfold wrap32.
  destruct (Z.lt_ge_cases s 32) as [Hlt | Hge].
  - rewrite Z.mod_pow2_bits_low by lia.
    rewrite Z.land_spec, Z.lnot_spec by lia.
    rewrite Z.shiftl_spec by lia. rewrite Z.sub_diag.
    change (Z.testbit 1 0) with true. apply andb_false_r.
  - apply Z.mod_pow2_bits_high. lia.
Qed.

Section NoSolution.

Variables (rate parent_rate : Z) (best : pll_ctrl).
Hypothesis Hsearch :
  Mango.__get_pll_ctl_setting pll_ctrl_zero rate parent_rate = Ok (0, best).
Hypothesis Hnone : freq best = 0.

Lemma mango_set_rate_no_solution (fuel : nat) (pll : Mango.mango_pll_clock)
      (map : regmap) :
  Mango.mango_clk_pll_set_rate fuel pll rate parent_rate map =
  Ok (Some (0, regmap_write map (Mango.offset_enable pll)
                 (Z.land (regmap_read map (Mango.offset_enable pll))
                         (Z.lnot (Z.shiftl 1 (Mango.shift_enable pll)))))).
Proof.
  unfold Mango.mango_clk_pll_set_rate, Mango.__mango_pll_enable.
  rewrite Hsearch. cbn [bind snd]. rewrite Hnone. reflexivity.
Qed.

Lemma mango_top_set_rate_no_solution (PLL_CTRL_OFFSET PLL_STAT_LOCK_OFFSET : Z)
      (fuel : nat) (pll : MangoTop.mango_pll_clock) (map : regmap) :
  MangoTop.mango_clk_pll_set_rate PLL_CTRL_OFFSET PLL_STAT_LOCK_OFFSET
                                  fuel pll rate parent_rate map =
  Ok (Some (0, regmap_write map (MangoTop.enable_offset pll)
                 (Z.land (regmap_read map (MangoTop.enable_offset pll))
                         (Z.lnot (Z.shiftl 1 (MangoTop.id pll)))))).
Proof.
  unfold MangoTop.mango_clk_pll_set_rate, MangoTop.mango_pll_enable.
  rewrite Hsearch. cbn [bind snd]. rewrite Hnone. reflexivity.
Qed.

End NoSolution.

Lemma regmap_write_other (map : regmap) (reg val other : Z) :
  other <> reg -> regs (regmap_write map reg val) other = regs map other.
Proof.
  intros Hne. unfold regmap_write. simpl.
  destruct (Z.eqb_spec other reg); [contradiction | reflexivity].
Qed.

Lemma regmap_write_same (map : regmap) (reg val : Z) :
  regs (regmap_write map reg val) reg = wrap32 val.
Proof. unfold regmap_write. simpl. rewrite Z.eqb_refl. reflexivity. Qed.

(** The first write of every call that returns clears the enable bit. *)
Lemma mango_set_rate_clears_enable_first (fuel : nat) (pll : Mango.mango_pll_clock)
      (rate parent_rate : Z) (map : regmap) (ret : Z) (map' : regmap) :
  Mango.mango_clk_pll_set_rate fuel pll rate parent_rate map = Ok (Some (ret, map')) ->
  exists rest,
    writes map' =
    writes map ++
    (Mango.offset_enable pll,
     wrap32 (Z.land (regmap_read map (Mango.offset_enable pll))
                    (Z.lnot (Z.shiftl 1 (Mango.shift_enable pll))))) :: rest.
Proof.
  unfold Mango.mango_clk_pll_set_rate.
  unfold Mango.__mango_pll_enable at 2.
  destruct (Mango.__get_pll_ctl_setting _ _ _) as [[r best] |]; [| discriminate].
  cbn [bind snd].
  destruct (freq best =? 0).
  - intros Heq. injection Heq as _ <-. exists []. reflexivity.
  - unfold Mango.__mango_pll_enable.
    destruct (poll_while _ _ _ _ _); [| discriminate].
    destruct (poll_while _ _ _ _ _); [| discriminate].
    intros Heq. injection Heq as _ <-. simpl. rewrite <- !app_assoc.
    eexists. reflexivity.
Qed.

Lemma mango_top_set_rate_clears_enable_first
      (PLL_CTRL_OFFSET PLL_STAT_LOCK_OFFSET : Z)
      (fuel : nat) (pll : MangoTop.mango_pll_clock)
      (rate parent_rate : Z) (map : regmap) (ret : Z) (map' : regmap) :
  MangoTop.mango_clk_pll_set_rate PLL_CTRL_OFFSET PLL_STAT_LOCK_OFFSET
                                  fuel pll rate parent_rate map
    = Ok (Some (ret, map')) ->
  exists rest,
    writes map' =
    writes map ++
    (MangoTop.enable_offset pll,
     wrap32 (Z.land (regmap_read map (MangoTop.enable_offset pll))
                    (Z.lnot (Z.shiftl 1 (MangoTop.id pll))))) :: rest.
Proof.
  unfold MangoTop.mango_clk_pll_set_rate.
  unfold MangoTop.mango_pll_enable at 2.
  destruct (Mango.__get_pll_ctl_setting _ _ _) as [[r best] |]; [| discriminate].
  cbn [bind snd].
  destruct (freq best =? 0).
  - intros Heq. injection Heq as _ <-. exists []. reflexivity.
  - unfold MangoTop.mango_pll_enable.
    destruct (poll_while _ _ _ _ _); [| discriminate].
    destruct (poll_while _ _ _ _ _); [| discriminate].
    intros Heq. injection Heq as _ <-. unfold MangoTop.mango_pll_write.
    simpl. rewrite <- !app_assoc.
    eexists. reflexivity.
Qed.

(** C10. On every call of [mango_clk_pll_set_rate] the first register
    write clears the enable bit of the PLL.  If the search then finds no
    setting (it leaves the frequency of the cleared struct at 0), that
    write stays the only one: the control word register is not written
    and keeps its old value, the enable bit is not set again, and the
    function returns 0.  This holds of both revisions of the function,
    for a PLL whose control word and enable bit live in different
    registers. *)
Theorem set_rate_no_solution_leaves_pll_disabled
        (rate parent_rate : Z) (best : pll_ctrl) (fuel : nat) :
  Mango.__get_pll_ctl_setting pll_ctrl_zero rate parent_rate = Ok (0, best) ->
  freq best = 0 ->
  (forall (pll : Mango.mango_pll_clock) (map : regmap),
      0 <= Mango.shift_enable pll ->
      Mango.offset_ctrl pll <> Mango.offset_enable pll ->
      exists cleared map',
        Mango.mango_clk_pll_set_rate fuel pll rate parent_rate map
          = Ok (Some (0, map')) /\
        writes map' = writes map ++ [(Mango.offset_enable pll, cleared)] /\
        regs map' (Mango.offset_enable pll) = cleared /\
        Z.testbit cleared (Mango.shift_enable pll) = false /\
        regs map' (Mango.offset_ctrl pll) = regs map (Mango.offset_ctrl pll)) /\
  (forall (PLL_CTRL_OFFSET PLL_STAT_LOCK_OFFSET : Z)
          (pll : MangoTop.mango_pll_clock) (map : regmap),
      0 <= MangoTop.id pll ->
      PLL_CTRL_OFFSET + Z.shiftl (MangoTop.id pll) 2 <> MangoTop.enable_offset pll ->
      exists cleared map',
        MangoTop.mango_clk_pll_set_rate PLL_CTRL_OFFSET PLL_STAT_LOCK_OFFSET
                                        fuel pll rate parent_rate map
          = Ok (Some (0, map')) /\
        writes map' = writes map ++ [(MangoTop.enable_offset pll, cleared)] /\
        regs map' (MangoTop.enable_offset pll) = cleared /\
        Z.testbit cleared (MangoTop.id pll) = false /\
        MangoTop.mango_pll_read PLL_CTRL_OFFSET map' (MangoTop.id pll)
          = MangoTop.mango_pll_read PLL_CTRL_OFFSET map (MangoTop.id pll)) /\
  (forall (pll : Mango.mango_pll_clock) (rate' parent_rate' : Z)
          (map : regmap) (ret : Z) (map' : regmap),
      Mango.mango_clk_pll_set_rate fuel pll rate' parent_rate' map
        = Ok (Some (ret, map')) ->
      exists rest,
        writes map' =
        writes map ++
        (Mango.offset_enable pll,
         wrap32 (Z.land (regmap_read map (Mango.offset_enable pll))
                        (Z.lnot (Z.shiftl 1 (Mango.shift_enable pll))))) :: rest) /\
  (forall (PLL_CTRL_OFFSET PLL_STAT_LOCK_OFFSET : Z)
          (pll : MangoTop.mango_pll_clock) (rate' parent_rate' : Z)
          (map : regmap) (ret : Z) (map' : regmap),
      MangoTop.mango_clk_pll_set_rate PLL_CTRL_OFFSET PLL_STAT_LOCK_OFFSET
                                      fuel pll rate' parent_rate' map
        = Ok (Some (ret, map')) ->
      exists rest,
        writes map' =
        writes map ++
        (MangoTop.enable_offset pll,
         wrap32 (Z.land (regmap_read map (MangoTop.enable_offset pll))
                        (Z.lnot (Z.shiftl 1 (MangoTop.id pll))))) :: rest).
Proof.
  intros Hsearch Hnone. split; [| split; [| split]].
  - intros pll map Hshift Hdistinct.
    eexists. eexists. split.
    + apply (mango_set_rate_no_solution rate parent_rate best Hsearch Hnone).
    + split; [reflexivity |].
      split; [apply regmap_write_same |].
      split; [apply clear_bit_testbit; assumption |].
      apply regmap_write_other. assumption.
  - intros PLL_CTRL_OFFSET PLL_STAT_LOCK_OFFSET pll map Hid Hdistinct.
    eexists. eexists. split.
    + apply (mango_top_set_rate_no_solution rate parent_rate best Hsearch Hnone).
    + split; [reflexivity |].
      split; [apply regmap_write_same |].
      split; [apply clear_bit_testbit; assumption |].
      unfold MangoTop.mango_pll_read, regmap_read.
      apply regmap_write_other. assumption.
  - intros pll rate' parent_rate' map ret map'.
    apply mango_set_rate_clears_enable_first.
  - intros PLL_CTRL_OFFSET PLL_STAT_LOCK_OFFSET pll rate' parent_rate' map ret map'.
    apply mango_top_set_rate_clears_enable_first.
Qed.

Lemma set_rate_no_solution_leaves_pll_disabled_witness :
  let pll := Mango.mk_mango_pll_clock 0xc0 0xc4 0xe8 8 0 0 in
  let map := mk_regmap (fun _ => 0xffffffff) [] in
  Mango.__get_pll_ctl_setting pll_ctrl_zero 1000 25000000 = Ok (0, pll_ctrl_zero) /\
  exists cleared map',
    Mango.mango_clk_pll_set_rate 8 pll 1000 25000000 map = Ok (Some (0, map')) /\
    writes map' = writes map ++ [(Mango.offset_enable pll, cleared)] /\
    regs map' (Mango.offset_enable pll) = cleared /\
    Z.testbit cleared (Mango.shift_enable pll) = false /\
    regs map' (Mango.offset_ctrl pll) = regs map (Mango.offset_ctrl pll).
Proof.
  intros pll map.
  assert (Hsearch : Mango.__get_pll_ctl_setting pll_ctrl_zero 1000 25000000
                    = Ok (0, pll_ctrl_zero)) by (vm_compute; reflexivity).
  split; [exact Hsearch |].
  destruct (set_rate_no_solution_leaves_pll_disabled
              1000 25000000 pll_ctrl_zero 8 Hsearch eq_refl) as [Hrev _].
  apply Hrev; simpl; [lia | discriminate].
Defined.

(** ** Allocation of hardware IRQ numbers *)

Lemma order_base_2_nonneg (n : Z) : 0 <= order_base_2 n.
Proof.
  unfold order_base_2. destruct (n <=? 1); [lia |].
  pose proof (Z.log2_nonneg (n - 1)). lia.
Qed.

Lemma region_mask_testbit (pos order j : Z) :
  0 <= pos -> 0 <= order -> 0 <= j ->
  Z.testbit (region_mask pos order) j = (pos <=? j) && (j <? pos + 2 ^ order).
Proof.
  intros Hpos Horder Hj. unfold region_mask.
  assert (0 < 2 ^ order) by (apply Z.pow_pos_nonneg; lia).
  rewrite Z.shiftl_spec by assumption.
  destruct (Z.leb_spec pos j) as [Hle | Hgt].
  - destruct (Z.ltb_spec j (pos + 2 ^ order)) as [Hlt | Hge].
    + apply Z.ones_spec_low. lia.
    + apply Z.ones_spec_high. lia.
  - apply Z.testbit_neg_r. lia.
Qed.

(** A region with a set bit is not free. *)
Lemma region_busy (bitmap pos order j : Z) :
  0 <= pos -> 0 <= order ->
  pos <= j < pos + 2 ^ order -> Z.testbit bitmap j = true ->
  region_is_free bitmap pos order = false.
Proof.
  intros Hpos Horder Hj Hbit. unfold region_is_free.
  apply Z.eqb_neq. intros Hzero.
  assert (Hand : Z.testbit (Z.land bitmap (region_mask pos order)) j = false)
    by (rewrite Hzero; apply Z.bits_0).
  rewrite Z.land_spec, Hbit, region_mask_testbit in Hand by lia.
  destruct (Z.leb_spec pos j); [| lia].
  destruct (Z.ltb_spec j (pos + 2 ^ order)); [| lia].
  discriminate Hand.
Qed.

(** A region all of whose bits are clear is free. *)
Lemma region_clear_is_free (bitmap pos order : Z) :
  0 <= pos -> 0 <= order ->
  (forall j, pos <= j < pos + 2 ^ order -> Z.testbit bitmap j = false) ->
  region_is_free bitmap pos order = true.
Proof.
  intros Hpos Horder Hclear. unfold region_is_free.
  apply Z.eqb_eq. apply Z.bits_inj'. intros j Hj.
  rewrite Z.land_spec, Z.bits_0, region_mask_testbit by lia.
  destruct (Z.leb_spec pos j); [| apply andb_false_r].
  destruct (Z.ltb_spec j (pos + 2 ^ order)); [| apply andb_false_r].
  rewrite Hclear by lia. reflexivity.
Qed.

Lemma find_free_from_sound (fuel : nat) (bitmap bits order : Z) :
  forall pos p,
    find_free_from fuel bitmap bits order pos = Some p ->
    region_is_free bitmap p order = true /\ pos <= p /\ p + 2 ^ order <= bits.
Proof.
  induction fuel as [| n IH]; intros pos p; simpl; [discriminate |].
  destruct (Z.leb_spec (pos + 2 ^ order) bits) as [Hfit | _]; [| discriminate].
  destruct (region_is_free bitmap pos order) eqn:Hfree.
  - intros Heq. injection Heq as <-. repeat split; [assumption | lia | assumption].
  - intros Hrec. apply IH in Hrec. destruct Hrec as (Hf & Hle & Hend).
    assert (0 <= 2 ^ order) by (apply Z.pow_nonneg; lia).
    repeat split; [assumption | lia | assumption].
Qed.

(** The scan finds nothing when every aligned region it can visit has
    a set bit. *)
Lemma find_free_from_none (fuel : nat) (bitmap bits order : Z) :
  0 <= order ->
  (forall pos, 0 <= pos -> pos mod 2 ^ order = 0 -> pos + 2 ^ order <= bits ->
               exists j, pos <= j < pos + 2 ^ order /\ Z.testbit bitmap j = true) ->
  forall pos, 0 <= pos -> pos mod 2 ^ order = 0 ->
              find_free_from fuel bitmap bits order pos = None.
Proof.
  intros Horder Hbusy.
  assert (Hpow : 0 < 2 ^ order) by (apply Z.pow_pos_nonneg; lia).
  induction fuel as [| n IH]; intros pos Hpos Halign; simpl; [reflexivity |].
  destruct (Z.leb_spec (pos + 2 ^ order) bits) as [Hfit | _]; [| reflexivity].
  destruct (Hbusy pos Hpos Halign Hfit) as (j & Hj & Hbit).
  rewrite (region_busy bitmap pos order j) by assumption.
  apply IH; [lia |].
  replace (pos + 2 ^ order) with (pos + 1 * 2 ^ order) by lia.
  rewrite Z_mod_plus_full. assumption.
Qed.

Lemma aligned_step (size pos q : Z) :
  0 < size -> pos mod size = 0 -> q mod size = 0 -> pos <= q -> pos <> q ->
  pos + size <= q.
Proof.
  intros Hsize Hpos Hq Hle Hne.
  apply Z.mod_divide in Hpos, Hq; try lia.
  destruct Hpos as [a ->]. destruct Hq as [b ->].
  assert (Hab : a < b) by (apply (Z.mul_lt_mono_pos_r size); lia).
  replace (a * size + size) with ((a + 1) * size) by ring.
  apply Z.mul_le_mono_nonneg_r; lia.
Qed.

(** With fuel for every slot, the scan finds a free aligned region
    whenever there is one. *)
Lemma find_free_from_complete (bitmap bits order : Z) :
  0 <= order ->
  forall (fuel : nat) (pos q : Z),
    bits <= pos + Z.of_nat fuel ->
    0 <= pos -> pos mod 2 ^ order = 0 ->
    pos <= q -> q mod 2 ^ order = 0 -> q + 2 ^ order <= bits ->
    region_is_free bitmap q order = true ->
    exists p, find_free_from fuel bitmap bits order pos = Some p.
Proof.
  intros Horder.
  assert (Hpow : 0 < 2 ^ order) by (apply Z.pow_pos_nonneg; lia).
  induction fuel as [| n IH]; intros pos q Hfuel Hpos Halign Hle Hq Hfit Hfree.
  - simpl in Hfuel. lia.
  - simpl. destruct (Z.leb_spec (pos + 2 ^ order) bits) as [Hfit' | Hno].
    + destruct (region_is_free bitmap pos order) eqn:Hhere; [eauto |].
      assert (Hnext : pos + 2 ^ order <= q).
      { destruct (Z.eq_dec pos q) as [-> | Hne]; [congruence |].
        apply (aligned_step (2 ^ order)); assumption || lia. }
      apply (IH (pos + 2 ^ order) q); try assumption; try lia.
      replace (pos + 2 ^ order) with (pos + 1 * 2 ^ order) by lia.
      rewrite Z_mod_plus_full. assumption.
    + destruct (Z.eq_dec pos q) as [-> | Hne]; [lia |].
      pose proof (aligned_step (2 ^ order) pos q Hpow Halign Hq Hle Hne). lia.
Qed.

Lemma ldiff_lor_disjoint (b m : Z) : Z.land b m = 0 -> Z.ldiff (Z.lor b m) m = b.
Proof.
  intros Hdisj. apply Z.bits_inj'. intros j Hj.
  rewrite Z.ldiff_spec, Z.lor_spec.
  assert (Hand : Z.testbit (Z.land b m) j = false) by (rewrite Hdisj; apply Z.bits_0).
  rewrite Z.land_spec in Hand.
  destruct (Z.testbit b j), (Z.testbit m j); simpl in *; congruence.
Qed.

Lemma iterate_set_info_other (virq bit v : Z) :
  forall (count : nat) (i0 : Z) (t : irq_table),
    (forall i, i0 <= i < i0 + Z.of_nat count -> wrap32 (virq + i) <> v) ->
    iterate count i0
            (fun i t => irq_domain_set_info (wrap32 (virq + i)) (bit + i) t) t v
    = t v.
Proof.
  induction count as [| n IH]; intros i0 t Hother; simpl; [reflexivity |].
  rewrite IH by (intros i Hi; apply Hother; lia).
  unfold irq_domain_set_info.
  destruct (Z.eqb_spec v (wrap32 (virq + i0))) as [Heq | Hne]; [| reflexivity].
  exfalso. apply (Hother i0); [lia | congruence].
Qed.

(** After a successful allocation the descriptor of [virq] holds the
    base of the region. *)
Lemma alloc_records_base (virq bit nr_irqs : Z) (t : irq_table) :
  1 <= nr_irqs < 2 ^ 32 -> 0 <= virq < 2 ^ 32 ->
  irq_domain_get_irq_data
    (iterate (Z.to_nat nr_irqs) 0
             (fun i t => irq_domain_set_info (wrap32 (virq + i)) (bit + i) t) t)
    virq
  = Some bit.
Proof.
  intros Hn Hvirq. unfold irq_domain_get_irq_data.
  destruct (Z.to_nat nr_irqs) as [| m] eqn:Hm; [lia |].
  simpl iterate. rewrite iterate_set_info_other.
  - unfold irq_domain_set_info, wrap32.
    rewrite Z.add_0_r, Z.mod_small by lia.
    rewrite Z.eqb_refl, Z.add_0_r. reflexivity.
  - intros i Hi. unfold wrap32. intros Heq.
    assert (i < 2 ^ 32) by lia.
    change (2 ^ 32) with 4294967296 in *.
    Z.div_mod_to_equations. lia.
Qed.

(** C8. For every allocation request: if the in-use bitmap holds no
    free region of the requested order (every region of [2 ^ order]
    slots aligned to its size, inside the first [num_vectors] slots,
    has a slot in use), the allocation returns [-ENOSPC] and leaves the
    bitmap, and the interrupt descriptors, as they were. *)
Theorem alloc_without_free_region_is_enospc
        (pcie : sg2042_pcie) (t : irq_table) (virq nr_irqs : Z) :
  (forall pos, 0 <= pos -> pos mod 2 ^ order_base_2 nr_irqs = 0 ->
               pos + 2 ^ order_base_2 nr_irqs <= num_vectors pcie ->
               exists j, pos <= j < pos + 2 ^ order_base_2 nr_irqs /\
                         Z.testbit (msi_irq_in_use pcie) j = true) ->
  cdns_pcie_irq_domain_alloc pcie t virq nr_irqs = (- ENOSPC, pcie, t).
Proof.
  intros Hbusy. unfold cdns_pcie_irq_domain_alloc, bitmap_find_free_region.
  pose proof (order_base_2_nonneg nr_irqs) as Horder.
  rewrite (find_free_from_none _ _ _ _ Horder Hbusy 0) by (auto using Z.mod_0_l; lia).
  destruct pcie; reflexivity.
Qed.

Lemma alloc_without_free_region_is_enospc_witness :
  let pcie := mk_sg2042_pcie (fun _ => 0) MSI_DEF_NUM_VECTORS 0
                             (Z.shiftl (Z.ones 507) 5) in
  let t : irq_table := fun _ => None in
  (forall j, 0 <= j < 5 -> Z.testbit (msi_irq_in_use pcie) j = false) /\
  (forall j, 5 <= j < 512 -> Z.testbit (msi_irq_in_use pcie) j = true) /\
  cdns_pcie_irq_domain_alloc pcie t 40 8 = (- ENOSPC, pcie, t).
Proof.
  intros pcie t.
  assert (Hset : forall j, 5 <= j < 512 -> Z.testbit (msi_irq_in_use pcie) j = true).
  { intros j Hj. unfold pcie. cbn [msi_irq_in_use].
    rewrite Z.shiftl_spec by lia. apply Z.ones_spec_low. lia. }
  split.
  { intros j Hj. unfold pcie. cbn [msi_irq_in_use].
    rewrite Z.shiftl_spec by lia. apply Z.testbit_neg_r. lia. }
  split; [exact Hset |].
  apply alloc_without_free_region_is_enospc.
  change (order_base_2 8) with 3. change (2 ^ 3) with 8.
  intros pos Hpos _ Hfit. exists (pos + 7). split; [lia |].
  apply Hset. unfold pcie in Hfit. cbn [num_vectors] in Hfit.
  unfold MSI_DEF_NUM_VECTORS in Hfit. lia.
Defined.

(** Conversely, with a free aligned region the allocation succeeds. *)
Lemma alloc_with_free_region_succeeds
      (pcie : sg2042_pcie) (t : irq_table) (virq nr_irqs q : Z) :
  0 <= q -> q mod 2 ^ order_base_2 nr_irqs = 0 ->
  q + 2 ^ order_base_2 nr_irqs <= num_vectors pcie ->
  (forall j, q <= j < q + 2 ^ order_base_2 nr_irqs ->
             Z.testbit (msi_irq_in_use pcie) j = false) ->
  fst (fst (cdns_pcie_irq_domain_alloc pcie t virq nr_irqs)) = 0.
Proof.
  intros Hq Halign Hfit Hclear.
  pose proof (order_base_2_nonneg nr_irqs) as Horder.
  assert (Hpow : 0 < 2 ^ order_base_2 nr_irqs) by (apply Z.pow_pos_nonneg; lia).
  destruct (find_free_from_complete (msi_irq_in_use pcie) (num_vectors pcie)
              (order_base_2 nr_irqs) Horder (Z.to_nat (num_vectors pcie)) 0 q)
    as [p Hp]; try assumption; try lia.
  { apply Z.mod_0_l. lia. }
  { apply region_clear_is_free; assumption. }
  unfold cdns_pcie_irq_domain_alloc, bitmap_find_free_region. rewrite Hp.
  apply find_free_from_sound in Hp. destruct Hp as (_ & Hp & _).
  destruct (Z.ltb_spec p 0); [lia | reflexivity].
Qed.

(** C9. For every bitmap and count for which the allocation succeeds,
    with base slot [b]: releasing the region of the same count at [b]
    gives the bitmap it was before the allocation; and the release
    routine, called at once with the same virtual IRQ and count, finds
    [b] in the descriptor and restores the driver state. *)
Theorem alloc_then_free_restores
        (pcie : sg2042_pcie) (t : irq_table) (virq nr_irqs : Z)
        (pcie' : sg2042_pcie) (t' : irq_table) :
  cdns_pcie_irq_domain_alloc pcie t virq nr_irqs = (0, pcie', t') ->
  let order := order_base_2 nr_irqs in
  let b := fst (bitmap_find_free_region (msi_irq_in_use pcie) (num_vectors pcie) order) in
  0 <= b /\
  msi_irq_in_use pcie' = Z.lor (msi_irq_in_use pcie) (region_mask b order) /\
  bitmap_release_region (msi_irq_in_use pcie') b order = msi_irq_in_use pcie /\
  (1 <= nr_irqs < 2 ^ 32 -> 0 <= virq < 2 ^ 32 ->
   cdns_pcie_irq_domain_free pcie' t' virq nr_irqs = Some pcie).
Proof.
  unfold cdns_pcie_irq_domain_alloc, bitmap_find_free_region.
  destruct (find_free_from _ _ _ _ _) as [p |] eqn:Hfind.
  - apply find_free_from_sound in Hfind. destruct Hfind as (Hfree & Hp & _).
    destruct (Z.ltb_spec p 0) as [Hneg | _]; [lia |].
    intros Heq. injection Heq as <- <-. cbn [fst msi_irq_in_use].
    unfold region_is_free in Hfree. apply Z.eqb_eq in Hfree.
    assert (Hrestore : bitmap_release_region
                         (Z.lor (msi_irq_in_use pcie)
                                (region_mask p (order_base_2 nr_irqs)))
                         p (order_base_2 nr_irqs) = msi_irq_in_use pcie)
      by (apply ldiff_lor_disjoint; assumption).
    repeat split; try assumption.
    intros Hn Hvirq. unfold cdns_pcie_irq_domain_free.
    rewrite alloc_records_base by assumption.
    cbn [msi_page num_vectors num_applied_vecs msi_irq_in_use].
    rewrite Hrestore. destruct pcie; reflexivity.
  - cbn. intros Heq. discriminate Heq.
Qed.

Lemma alloc_then_free_restores_witness :
  let pcie := mk_sg2042_pcie (fun _ => 0) MSI_DEF_NUM_VECTORS 0 7 in
  let t : irq_table := fun _ => None in
  let r := cdns_pcie_irq_domain_alloc pcie t 40 2 in
  fst (fst r) = 0 /\
  msi_irq_in_use (snd (fst r)) = 55 /\
  cdns_pcie_irq_domain_free (snd (fst r)) (snd r) 40 2 = Some pcie.
Proof.
  intros pcie t r.
  destruct (alloc_then_free_restores pcie t 40 2 (snd (fst r)) (snd r) eq_refl)
    as (_ & _ & _ & Hfree).
  split; [reflexivity |].
  split; [reflexivity |].
  apply Hfree; lia.
Defined.

(** ** Chained dispatch *)

Lemma slots_from_ge (count : nat) :
  forall lo i, In i (slots_from count lo) -> lo <= i.
Proof.
  induction count as [| n IH]; intros lo i; simpl; [contradiction |].
  intros [<- | Hin]; [lia |]. apply IH in Hin. lia.
Qed.

Lemma existsb_ext_in {A : Type} (f g : A -> bool) (l : list A) :
  (forall x, In x l -> f x = g x) -> existsb f l = existsb g l.
Proof.
  induction l as [| a l IH]; intros Hext; simpl; [reflexivity |].
  rewrite (Hext a) by (left; reflexivity).
  rewrite IH by (intros x Hx; apply Hext; right; exact Hx).
  reflexivity.
Qed.

Lemma filter_nil_existsb {A : Type} (f : A -> bool) (l : list A) :
  filter f l = [] <-> existsb f l = false.
Proof.
  induction l as [| a l IH]; simpl; [tauto |].
  destruct (f a); simpl; [split; discriminate | exact IH].
Qed.

(** With one IRQ per status word, the loop over the set bits looks at
    bit 0 only. *)
Lemma handle_bits_bit0 (val : Z) (raise : Z -> list Z) :
  handle_bits (S (Z.to_nat MAX_MSI_IRQS_PER_CTRL)) val 0 raise =
  if Z.testbit val 0 then raise 0 else [].
Proof.
  change (S (Z.to_nat MAX_MSI_IRQS_PER_CTRL)) with 2%nat.
  cbn [handle_bits]. unfold find_next_bit, MAX_MSI_IRQS_PER_CTRL.
  change (Z.to_nat (1 - 0)) with 1%nat. cbn [find_next_bit_from].
  change (1 <=? 0) with false. cbv iota.
  destruct (Z.testbit val 0).
  - change (0 =? 1) with false. cbv iota.
    change (Z.to_nat (1 - (0 + 1))) with 0%nat. cbn [find_next_bit_from].
    change (1 =? 1) with true. cbv iota. apply app_nil_r.
  - change (1 =? 1) with true. reflexivity.
Qed.

Lemma entry_writel_other (page : msi_mem) (i j val : Z) :
  i <> j ->
  entry (writel val page (j * BYTE_NUM_PER_MSI_VEC)) i = entry page i.
Proof.
  intros Hne. unfold entry, readl, writel, BYTE_NUM_PER_MSI_VEC.
  destruct (Z.eqb_spec (i * 4) (j * 4)); [lia | reflexivity].
Qed.

Lemma signalled_pending (page : msi_mem) (i : Z) :
  signalled page i = true -> pending page i = true.
Proof.
  unfold signalled, pending. intros Hbit.
  destruct (Z.eqb_spec (entry page i) 0) as [Hz | _]; [| reflexivity].
  rewrite Hz in Hbit. discriminate Hbit.
Qed.

Section FirstPass.

Variable raise : Z -> list Z.

Lemma first_pass_body_idle (i : Z) (st : dispatch) :
  pending (page st) i = false -> first_pass_body raise i st = st.
Proof.
  unfold pending, first_pass_body, entry. intros Hp.
  destruct (readl (page st) (i * BYTE_NUM_PER_MSI_VEC) =? 0); [reflexivity | discriminate].
Qed.

Lemma first_pass_body_pending (i : Z) (st : dispatch) :
  pending (page st) i = true ->
  first_pass_body raise i st =
  {| ret := IRQ_HANDLED;
     page := writel 0 (page st) (i * BYTE_NUM_PER_MSI_VEC);
     raised := raised st ++ (if signalled (page st) i then raise_slot raise i else []) |}.
Proof.
  unfold pending, first_pass_body, entry, signalled, entry. intros Hp.
  destruct (readl (page st) (i * BYTE_NUM_PER_MSI_VEC) =? 0); [discriminate |].
  rewrite handle_bits_bit0. reflexivity.
Qed.

Lemma first_pass (count : nat) :
  forall (lo : Z) (st : dispatch),
    let st' := iterate count lo (first_pass_body raise) st in
    let slots := slots_from count lo in
    raised st' =
      raised st ++ flat_map (raise_slot raise) (filter (signalled (page st)) slots) /\
    ret st' = (if existsb (pending (page st)) slots then IRQ_HANDLED else ret st) /\
    forall off, page st' off = cleared (page st) slots off.
Proof.
  induction count as [| n IH]; intros lo st; cbn zeta.
  - simpl. rewrite app_nil_r. auto.
  - cbn [iterate slots_from].
    destruct (IH (lo + 1) (first_pass_body raise lo st)) as (Hraised & Hret & Hpage).
    cbn zeta in Hraised, Hret, Hpage.
    destruct (pending (page st) lo) eqn:Hp.
    + rewrite first_pass_body_pending in * by assumption.
      cbn [page ret raised] in *.
      assert (Hsame : forall i, In i (slots_from n (lo + 1)) ->
                entry (writel 0 (page st) (lo * BYTE_NUM_PER_MSI_VEC)) i
                = entry (page st) i).
      { intros i Hi. apply slots_from_ge in Hi. apply entry_writel_other. lia. }
      split; [| split].
      * rewrite Hraised. cbn [filter].
        rewrite (filter_ext_in (signalled (writel 0 (page st) (lo * BYTE_NUM_PER_MSI_VEC)))
                               (signalled (page st)))
          by (intros i Hi; unfold signalled; rewrite Hsame by assumption; reflexivity).
        destruct (signalled (page st) lo); cbn [flat_map];
          rewrite <- ?app_assoc, ?app_nil_r; reflexivity.
      * rewrite Hret. cbn [existsb]. rewrite Hp.
        match goal with |- (if ?b then _ else _) = _ => destruct b end; reflexivity.
      * intros off. rewrite Hpage. unfold cleared. cbn [existsb]. rewrite Hp.
        rewrite (existsb_ext_in
                   (fun i => pending (writel 0 (page st) (lo * BYTE_NUM_PER_MSI_VEC)) i
                             && (off =? i * BYTE_NUM_PER_MSI_VEC))
                   (fun i => pending (page st) i && (off =? i * BYTE_NUM_PER_MSI_VEC)))
          by (intros i Hi; unfold pending; rewrite Hsame by assumption; reflexivity).
        cbn [andb]. unfold writel. change (wrap32 0) with 0.
        destruct (off =? lo * BYTE_NUM_PER_MSI_VEC); cbn [orb].
        -- match goal with |- (if ?b then _ else _) = _ => destruct b end; reflexivity.
        -- reflexivity.
    + rewrite first_pass_body_idle in * by assumption.
      assert (Hs : signalled (page st) lo = false).
      { destruct (signalled (page st) lo) eqn:Hs; [| reflexivity].
        apply signalled_pending in Hs. congruence. }
      split; [| split].
      * rewrite Hraised. cbn [filter]. rewrite Hs. reflexivity.
      * rewrite Hret. cbn [existsb]. rewrite Hp. reflexivity.
      * intros off. rewrite Hpage. unfold cleared. cbn [existsb]. rewrite Hp.
        reflexivity.
Qed.

End FirstPass.

Lemma second_pass_body_slot (irq_find_mapping : Z -> Z) (i : Z) (st : dispatch) :
  second_pass_body irq_find_mapping i st =
  mk_dispatch (ret st) (page st)
              (raised st ++ filter mapped [irq_find_mapping (i * MAX_MSI_IRQS_PER_CTRL + 0)]).
Proof.
  unfold second_pass_body. change (Z.to_nat MAX_MSI_IRQS_PER_CTRL) with 1%nat.
  cbn [iterate filter]. unfold mapped.
  destruct (irq_find_mapping (i * MAX_MSI_IRQS_PER_CTRL + 0) =? 0); cbn [negb].
  - rewrite app_nil_r. destruct st; reflexivity.
  - reflexivity.
Qed.

Lemma second_pass (irq_find_mapping : Z -> Z) (count : nat) :
  forall (lo : Z) (st : dispatch),
    iterate count lo (second_pass_body irq_find_mapping) st =
    mk_dispatch (ret st) (page st)
                (raised st ++
                 filter mapped
                   (map (fun i => irq_find_mapping (i * MAX_MSI_IRQS_PER_CTRL + 0))
                        (slots_from count lo))).
Proof.
  induction count as [| n IH]; intros lo st; cbn [iterate slots_from map filter].
  - rewrite app_nil_r. destruct st; reflexivity.
  - rewrite IH, second_pass_body_slot. cbn [ret page raised filter].
    rewrite <- app_assoc. f_equal. f_equal.
    destruct (mapped _); reflexivity.
Qed.

Lemma slot_hwirq (i : Z) : i * MAX_MSI_IRQS_PER_CTRL + 0 = i.
Proof. unfold MAX_MSI_IRQS_PER_CTRL. lia. Qed.

Lemma flat_map_singleton {A B : Type} (f : A -> B) (l : list A) :
  flat_map (fun x => [f x]) l = map f l.
Proof. induction l as [| a l IH]; simpl; [| rewrite IH]; reflexivity. Qed.

Lemma flat_map_domain_irq (irq_find_mapping : Z -> Z) (l : list Z) :
  flat_map (raise_slot (generic_handle_domain_irq irq_find_mapping)) l =
  filter mapped (map irq_find_mapping l).
Proof.
  induction l as [| a l IH]; [reflexivity |].
  cbn [flat_map map filter]. rewrite IH.
  unfold raise_slot, generic_handle_domain_irq, mapped.
  rewrite slot_hwirq. destruct (irq_find_mapping a =? 0); reflexivity.
Qed.

Lemma cleared_pending (page0 : msi_mem) (slots : list Z) (i : Z) :
  In i (filter (pending page0) slots) -> entry (cleared page0 slots) i = 0.
Proof.
  intros Hin. apply filter_In in Hin. destruct Hin as [Hin Hp].
  unfold entry, readl, cleared.
  replace (existsb _ slots) with true; [reflexivity |].
  symmetry. apply existsb_exists. exists i.
  rewrite Hp, Z.eqb_refl. auto.
Qed.

Lemma cleared_other (page0 : msi_mem) (slots : list Z) (i : Z) :
  ~ In i (filter (pending page0) slots) ->
  entry (cleared page0 slots) i = entry page0 i.
Proof.
  intros Hnot. unfold entry, readl, cleared.
  destruct (existsb _ slots) eqn:Hex; [| reflexivity].
  exfalso. apply Hnot. apply existsb_exists in Hex.
  destruct Hex as (k & Hk & Hcond). apply andb_prop in Hcond.
  destruct Hcond as [Hp Heq]. apply Z.eqb_eq in Heq.
  unfold BYTE_NUM_PER_MSI_VEC in Heq.
  replace i with k by lia. apply filter_In. auto.
Qed.

(** C2, as stated, fails for a status entry that is non-zero with bit 0
    clear: with the value 2 in slot 0, mapped to the virtual IRQ 7, the
    dispatch raises nothing, and, having seen a non-zero entry, skips
    the fallback too. *)
Lemma dispatch_as_stated_fails :
  ~ dispatch_as_stated
      (mk_sg2042_pcie (fun off => if off =? 0 then 2 else 0) MSI_DEF_NUM_VECTORS 0 1)
      (fun _ => 7).
Proof.
  intros (Hraised & _).
  assert (Hd : raised (cdns_handle_msi_irq
                         (mk_sg2042_pcie (fun off => if off =? 0 then 2 else 0)
                                         MSI_DEF_NUM_VECTORS 0 1)
                         (fun _ => 7)) = [7]).
  { apply Hraised. vm_compute. discriminate. }
  vm_compute in Hd. discriminate Hd.
Qed.

(** C2 (amended). For every invocation of the dispatch routine
    [cdns_handle_msi_irq]: every scanned slot (0 up to
    [num_applied_vecs]) with a non-zero status entry has that entry
    zeroed, and no other part of the status region changes; if some
    scanned entry is non-zero, the IRQs raised are those mapped to the
    scanned slots whose entry has bit 0 set, in slot order; if none is,
    the fallback pass raises the IRQ of every mapped scanned slot.  The
    routine returns IRQ_HANDLED either way.  The later revision
    [sg2042_pcie_handle_msi_irq] runs the same first pass, raising only
    mapped IRQs, and has no fallback. *)
Theorem dispatch_raises_signalled_slots
        (pcie : sg2042_pcie) (irq_find_mapping : Z -> Z) :
  let d := cdns_handle_msi_irq pcie irq_find_mapping in
  let d2 := sg2042_pcie_handle_msi_irq pcie irq_find_mapping in
  let nonzero := filter (pending (msi_page pcie)) (scanned pcie) in
  let bit0 := filter (signalled (msi_page pcie)) (scanned pcie) in
  (ret d = IRQ_HANDLED /\
   (nonzero <> [] -> raised d = map irq_find_mapping bit0) /\
   (nonzero = [] ->
    raised d = filter mapped (map irq_find_mapping (scanned pcie))) /\
   (forall i, In i nonzero -> entry (page d) i = 0) /\
   (forall i, ~ In i nonzero -> entry (page d) i = entry (msi_page pcie) i) /\
   (forall off, page d off = cleared (msi_page pcie) (scanned pcie) off)) /\
  (ret d2 = (if existsb (pending (msi_page pcie)) (scanned pcie)
             then IRQ_HANDLED else IRQ_NONE) /\
   raised d2 = filter mapped (map irq_find_mapping bit0) /\
   (forall off, page d2 off = cleared (msi_page pcie) (scanned pcie) off)).
Proof.
  cbn zeta. split.
  - unfold cdns_handle_msi_irq.
    destruct (first_pass (fun hwirq => [irq_find_mapping hwirq])
                         (Z.to_nat (num_applied_vecs pcie + 1)) 0
                         (mk_dispatch IRQ_NONE (msi_page pcie) []))
      as (Hraised & Hret & Hpage).
    cbn zeta in Hraised, Hret, Hpage. cbn [ret page raised] in Hraised, Hret, Hpage.
    fold (scanned pcie) in Hraised, Hret, Hpage.
    set (st := iterate _ 0 (first_pass_body _) _) in *.
    assert (Hbit0 : raised st =
                    map irq_find_mapping
                        (filter (signalled (msi_page pcie)) (scanned pcie))).
    { rewrite Hraised. cbn [app]. unfold raise_slot.
      rewrite flat_map_singleton. apply map_ext. intros i.
      rewrite slot_hwirq. reflexivity. }
    destruct (existsb (pending (msi_page pcie)) (scanned pcie)) eqn:Hany.
    + rewrite Hret. change (IRQ_HANDLED =? IRQ_NONE) with false. cbv iota.
      split; [exact Hret |].
      split; [intros _; exact Hbit0 |].
      split.
      { intros Hnil. apply filter_nil_existsb in Hnil. congruence. }
      split.
      { intros i Hi. unfold entry, readl. rewrite Hpage. apply (cleared_pending _ _ _ Hi). }
      split.
      { intros i Hi. unfold entry at 1, readl. rewrite Hpage. apply (cleared_other _ _ _ Hi). }
      exact Hpage.
    + rewrite Hret. change (IRQ_NONE =? IRQ_NONE) with true. cbv iota.
      rewrite second_pass. cbn [ret page raised]. fold (scanned pcie).
      split; [reflexivity |].
      split.
      { intros Hne. exfalso. apply Hne. apply filter_nil_existsb. exact Hany. }
      split.
      { intros _. rewrite Hbit0.
        assert (Hnone : filter (signalled (msi_page pcie)) (scanned pcie) = []).
        { apply filter_nil_existsb.
          destruct (existsb (signalled (msi_page pcie)) (scanned pcie)) eqn:Hs;
            [| reflexivity].
          apply existsb_exists in Hs. destruct Hs as (k & Hk & Hs).
          apply signalled_pending in Hs.
          assert (existsb (pending (msi_page pcie)) (scanned pcie) = true)
            by (apply existsb_exists; eauto).
          congruence. }
        rewrite Hnone. cbn [map app]. f_equal. apply map_ext. intros i.
        rewrite slot_hwirq. reflexivity. }
      split.
      { intros i Hi. unfold entry, readl. rewrite Hpage. apply (cleared_pending _ _ _ Hi). }
      split.
      { intros i Hi. unfold entry at 1, readl. rewrite Hpage. apply (cleared_other _ _ _ Hi). }
      exact Hpage.
  - unfold sg2042_pcie_handle_msi_irq.
    destruct (first_pass (generic_handle_domain_irq irq_find_mapping)
                         (Z.to_nat (num_applied_vecs pcie + 1)) 0
                         (mk_dispatch IRQ_NONE (msi_page pcie) []))
      as (Hraised & Hret & Hpage).
    cbn zeta in Hraised, Hret, Hpage. cbn [ret page raised] in Hraised, Hret, Hpage.
    fold (scanned pcie) in Hraised, Hret, Hpage.
    split; [exact Hret |].
    split; [| exact Hpage].
    rewrite Hraised. cbn [app]. apply flat_map_domain_irq.
Qed.
